(** * Bone cancer detection: the heuristic saliency overlay

    A shallow embedding of [utils/gradcam.py] ([generate_simple_heatmap] and
    [generate_gradcam_heatmap]), of [BoneCancerDetector.predict] of
    [utils/yolo_detector.py], and of [allowed_file], [upload] and [results] of
    [routes/predict.py].  Python floats and [np.float64] are Rocq's
    binary64 primitive floats; [np.float32] values are binary64 floats that have
    been rounded to binary32; [np.uint8] is [byte].  An [ndarray] is a list of
    rows.  The OpenCV filters, the image codecs, the colormap and the classifier
    are not code of this repository: they are the fields of the class [Cv2], and
    the facts about them that a theorem relies on are stated as laws. *)

From Stdlib Require Import ZArith List String Ascii Bool Lia Floats DecimalString.
From Stdlib.Strings Require Import Byte.
Import ListNotations.

Set Warnings "-inexact-float".

(** ** Python values, exceptions and the file system *)

Definition path := string.
Definition bytes := list byte.

Inductive exn : Type :=
| ValueError (msg : string)
| CvError (msg : string)
| IndexError (msg : string).

Inductive outcome (A : Type) : Type :=
| Ok (a : A)
| Raise (e : exn).
Arguments Ok {A} a.
Arguments Raise {A} e.

(** The part of the world the functions touch: the files, and which paths can
    be opened for writing. *)
Record World : Type := mkWorld {
  files : path -> option bytes;
  writable : path -> bool
}.

Definition fs_write (p : path) (b : bytes) (w : World) : World :=
  {| files := fun q => if String.eqb q p then Some b else files w q;
     writable := writable w |}.

(** What a run does besides computing: each array division (with its divisor)
    and each file written, in order. *)
Inductive event : Type :=
| EvDivide (divisor : float)
| EvWrite (p : path).

Record State : Type := mkState {
  world : World;
  trace : list event
}.

Definition M (A : Type) : Type := State -> outcome A * State.

Definition ret {A} (a : A) : M A := fun s => (Ok a, s).
Definition raise {A} (e : exn) : M A := fun s => (Raise e, s).
Definition bind {A B} (c : M A) (k : A -> M B) : M B :=
  fun s => match c s with
           | (Ok a, s') => k a s'
           | (Raise e, s') => (Raise e, s')
           end.
Definition lift {A} (o : outcome A) : M A := fun s => (o, s).
Definition emit (ev : event) : M unit :=
  fun s => (Ok tt, {| world := world s; trace := trace s ++ [ev] |}).

Notation "x <- c ;; k" := (bind c (fun x => k))
  (at level 61, c at next level, right associativity).

(** The state [s] after the events [tr], the world untouched. *)
Definition after (s : State) (tr : list event) : State :=
  {| world := world s; trace := trace s ++ tr |}.

(** A division event whose divisor is strictly positive. *)
Definition positive_division (ev : event) : Prop :=
  match ev with
  | EvDivide d => (0 <? d)%float = true
  | EvWrite _ => False
  end.

(** The divisions and the files written that a trace records. *)
Definition divisions (tr : list event) : list float :=
  flat_map (fun ev => match ev with EvDivide d => [d] | EvWrite _ => [] end) tr.

Definition writes (tr : list event) : list path :=
  flat_map (fun ev => match ev with EvDivide _ => [] | EvWrite p => [p] end) tr.

(** A computation that only computes: its result and the events it adds do
    not depend on the state, and the events are divisions by positive
    numbers. *)
Definition computes {A} (c : M A) (r : outcome A) (tr : list event) : Prop :=
  Forall positive_division tr /\ forall s, c s = (r, after s tr).

(** ** numpy arrays *)

Definition array (T : Type) : Type := list (list T).

(** The shape of an array: the length of each of its rows. *)
Definition dims {T} (a : array T) : list nat := map (@List.length T) a.

Fixpoint dims_eqb (d1 d2 : list nat) : bool :=
  match d1, d2 with
  | [], [] => true
  | x :: d1', y :: d2' => Nat.eqb x y && dims_eqb d1' d2'
  | _, _ => false
  end.

(** The pixel height and width of an array. *)
Definition height {T} (a : array T) : nat := List.length a.
Definition width {T} (a : array T) : nat := List.length (hd [] a).

(** [np.full((h, w), c)]: the uniform array. *)
Definition full {T} (h w : nat) (c : T) : array T := repeat (repeat c w) h.

Definition amap {A B} (f : A -> B) (a : array A) : array B := map (map f) a.

Fixpoint zip_with {A B C} (f : A -> B -> C) (l1 : list A) (l2 : list B) : list C :=
  match l1, l2 with
  | x :: l1', y :: l2' => f x y :: zip_with f l1' l2'
  | _, _ => []
  end.

(** An elementwise operation of two arrays.  numpy raises when the shapes
    cannot be broadcast together; only equal shapes are accepted here. *)
Definition np_binop {A B C} (f : A -> B -> C) (a : array A) (b : array B)
  : outcome (array C) :=
  if dims_eqb (dims a) (dims b)
  then Ok (zip_with (zip_with f) a b)
  else Raise (ValueError "operands could not be broadcast together").

(** ** Scalars: float64, float32 and uint8 *)

(** Rounding of a binary64 value to the nearest binary32 value (ties to even). *)
Definition to_f32 (x : float) : float :=
  match Prim2SF x with
  | S754_finite s m e =>
      SF2Prim (binary_normalize 24 128 (cond_Zopp s (Zpos m)) e s)
  | _ => x
  end.

Definition mul32 (x y : float) : float := to_f32 (x * y).
Definition sub32 (x y : float) : float := to_f32 (x - y).
Definition div32 (x y : float) : float := to_f32 (x / y).

Definition Z_of_u8 (b : byte) : Z := Z.of_N (Byte.to_N b).

Definition u8_of_Z (z : Z) : byte :=
  match Byte.of_N (Z.to_N (z mod 256)) with
  | Some b => b
  | None => x00
  end.

(** [uint8 -> float]: exact, and already a binary32 value. *)
Definition float_of_u8 (b : byte) : float := of_uint63 (Uint63.of_Z (Z_of_u8 b)).

(** The integer part of a float (towards zero); 0 for NaN and the infinities. *)
Definition trunc (x : float) : Z :=
  match Prim2SF x with
  | S754_finite s m e =>
      let q := if (0 <=? e)%Z then (Zpos m * 2 ^ e)%Z
               else (Zpos m / 2 ^ (- e))%Z in
      if s then (- q)%Z else q
  | _ => 0%Z
  end.

(** [.astype(np.uint8)] of a float: the integer part, modulo 256. *)
Definition astype_uint8 (x : float) : byte := u8_of_Z (trunc x).

(** [np.maximum(x, y)]: [x] when [x >= y] or [x] is NaN, else [y]. *)
Definition np_maximum (x y : float) : float :=
  if (y <=? x)%float || is_nan x then x else y.

(** [a.max()]: raises on an empty array. *)
Definition np_max (a : array float) : outcome float :=
  match List.concat a with
  | [] => Raise (ValueError "zero-size array to reduction operation maximum which has no identity")
  | x :: xs => Ok (fold_left np_maximum xs x)
  end.

(** [np.argmax(v)]: the first index of the maximum.  As in numpy's loop, a
    later entry replaces the best one when it is not [<=] it, and a NaN is
    maximal and ends the search. *)
Fixpoint argmax_from (best : float) (besti i : nat) (v : list float) : nat :=
  match v with
  | [] => besti
  | x :: v' =>
      if (x <=? best)%float then argmax_from best besti (S i) v'
      else if is_nan x then i
      else argmax_from x i (S i) v'
  end.

Definition np_argmax (v : list float) : outcome nat :=
  match v with
  | [] => Raise (ValueError "attempt to get argmax of an empty sequence")
  | x :: v' => Ok (if is_nan x then 0%nat else argmax_from x 0 1 v')
  end.

(** ** Images *)

(** A pixel of a three-channel 8-bit image, in the channel order of the array
    it lives in (B, G, R as [cv2.imread] returns it). *)
Definition pixel : Type := (byte * byte * byte)%type.

Definition swap_rb (p : pixel) : pixel :=
  let '(c0, c1, c2) := p in (c2, c1, c0).

(** ** The libraries *)

Class Cv2 : Type := {
  (** the decoder behind [cv2.imread]: [None] when the bytes are not an image *)
  imread_decode : bytes -> option (array pixel);
  (** the encoder [cv2.imwrite] picks from the file name's extension *)
  find_encoder : path -> option (array pixel -> bytes);
  (** [cv2.cvtColor(_, cv2.COLOR_BGR2GRAY)], per pixel *)
  gray_of_bgr : pixel -> byte;
  (** [cv2.GaussianBlur] of an 8-bit single-channel image *)
  GaussianBlur_u8 : array byte -> nat * nat -> float -> array byte;
  (** [cv2.Sobel(_, cv2.CV_64F, dx, dy, ksize)] *)
  Sobel_64F : array byte -> nat -> nat -> nat -> array float;
  (** [cv2.blur] of a float32 image *)
  blur_f32 : array float -> nat * nat -> array float;
  (** [cv2.GaussianBlur] of a float32 image *)
  GaussianBlur_f32 : array float -> nat * nat -> float -> array float;
  (** [matplotlib.cm.jet] at one value: red, green, blue, alpha *)
  cm_jet : float -> float * float * float * float;
  (** [cv2.addWeighted] at one channel of one pixel:
      [src1 * alpha + src2 * beta + gamma], rounded and saturated *)
  addWeighted_u8 : byte -> float -> byte -> float -> float -> byte;
  (** [YOLO(model_path)(image_path)[0].probs.data.cpu().numpy()] *)
  yolo_probs : World -> path -> path -> outcome (list float)
}.

(** ** utils/gradcam.py *)

Section Gradcam.
Context {lib : Cv2}.

(** [cv2.imread(filename)]: the decoded image in B, G, R order, or [None] when
    the file is missing or is not an image.  It never raises. *)
Definition cv2_imread (filename : path) : M (option (array pixel)) :=
  fun s => match files (world s) filename with
           | Some b => (Ok (imread_decode b), s)
           | None => (Ok None, s)
           end.

(** [cv2.imwrite(filename, img)]: raises when no encoder matches the file
    name's extension; otherwise returns whether the file could be written, and
    writes nothing when it could not. *)
Definition cv2_imwrite (filename : path) (img : array pixel) : M bool :=
  fun s => match find_encoder filename with
           | None =>
               (Raise (CvError "could not find a writer for the specified extension"), s)
           | Some enc =>
               if writable (world s) filename
               then (Ok true,
                     {| world := fs_write filename (enc img) (world s);
                        trace := trace s ++ [EvWrite filename] |})
               else (Ok false, s)
           end.

(** [cv2.cvtColor] with [COLOR_BGR2RGB] and [COLOR_RGB2BGR]: both exchange the
    first and the third channel. *)
Definition cvtColor_BGR2RGB (img : array pixel) : array pixel := amap swap_rb img.
Definition cvtColor_RGB2BGR (img : array pixel) : array pixel := amap swap_rb img.
Definition cvtColor_BGR2GRAY (img : array pixel) : array byte := amap gray_of_bgr img.

(** [cv2.addWeighted(src1, alpha, src2, beta, gamma)] of two 8-bit
    three-channel images: OpenCV raises when their sizes differ. *)
Definition addWeighted_px (alpha beta gamma : float) (p q : pixel) : pixel :=
  let '(p0, p1, p2) := p in
  let '(q0, q1, q2) := q in
  (addWeighted_u8 p0 alpha q0 beta gamma,
   addWeighted_u8 p1 alpha q1 beta gamma,
   addWeighted_u8 p2 alpha q2 beta gamma).

Definition cv2_addWeighted (src1 : array pixel) (alpha : float)
    (src2 : array pixel) (beta gamma : float) : outcome (array pixel) :=
  if dims_eqb (dims src1) (dims src2)
  then Ok (zip_with (zip_with (addWeighted_px alpha beta gamma)) src1 src2)
  else Raise (CvError "The operation is neither 'array op array' (where arrays have the same size and the same number of channels)").

(** [a / m] for an array and a scalar; the division is recorded. *)
Definition np_divide (div : float -> float -> float) (a : array float) (m : float)
  : M (array float) :=
  _ <- emit (EvDivide m) ;;
  ret (amap (fun x => div x m) a).

(** The normalisation written three times in the source (lines 44-45, 55-56
    and 70-71): [if a.max() > 0: a = a / a.max()].  [div] is the division of
    the array's element type. *)
Definition normalize (div : float -> float -> float) (a : array float)
  : M (array float) :=
  m <- lift (np_max a) ;;
  if (0 <? m)%float
  then m' <- lift (np_max a) ;; np_divide div a m'
  else ret a.

(** [wm * magnitude + wv * local_var] for a float64 array [magnitude] and a
    float32 array [local_var]: the first product is a float64 product, the
    second a float32 product by the float32 value of [wv], and the sum is a
    float64 sum. *)
Definition weighted_sum (wm : float) (magnitude : array float)
    (wv : float) (local_var : array float) : outcome (array float) :=
  np_binop PrimFloat.add
    (amap (fun x => wm * x)%float magnitude)
    (amap (fun x => mul32 (to_f32 wv) x) local_var).

(** [cm.jet(heatmap)[:, :, :3]], then [(_ * 255).astype(np.uint8)]. *)
Definition jet_rgb (v : float) : float * float * float :=
  let '(r, g, b, _) := cm_jet v in (r, g, b).

Definition to_uint8_rgb (c : float * float * float) : pixel :=
  let '(r, g, b) := c in
  (astype_uint8 (r * 255)%float, astype_uint8 (g * 255)%float,
   astype_uint8 (b * 255)%float).

(** The local variables of [generate_simple_heatmap] once the overlay has been
    computed, under the names the source gives them.  [magnitude], [local_var]
    and [heatmap] hold their last (normalised) values; [fused] is [heatmap] as
    line 61 or 64 assigns it. *)
Record Locals : Type := mkLocals {
  img_rgb : array pixel;
  gray : array byte;
  blurred : array byte;
  sobelx : array float;
  sobely : array float;
  magnitude : array float;
  local_mean : array float;
  local_sq_mean : array float;
  local_var : array float;
  fused : array float;
  heatmap : array float;
  heatmap_colored : array pixel;
  overlay : array pixel;
  overlay_bgr : array pixel
}.

(** Lines 29 to 81 of [generate_simple_heatmap], for a loaded image. *)
Definition heatmap_pipeline (img : array pixel) (prediction_class : string)
    (alpha : float) : M Locals :=
  let img_rgb := cvtColor_BGR2RGB img in
  let gray := cvtColor_BGR2GRAY img in
  let blurred := GaussianBlur_u8 gray (21, 21)%nat 0%float in
  let sobelx := Sobel_64F blurred 1%nat 0%nat 3%nat in
  let sobely := Sobel_64F blurred 0%nat 1%nat 3%nat in
  sumsq <- lift (np_binop PrimFloat.add
                   (amap (fun x => x * x)%float sobelx)
                   (amap (fun x => x * x)%float sobely)) ;;
  let magnitude := amap PrimFloat.sqrt sumsq in
  magnitude <- normalize PrimFloat.div magnitude ;;
  let kernel_size := 31%nat in
  let local_mean := blur_f32 (amap float_of_u8 gray) (kernel_size, kernel_size) in
  let local_sq_mean :=
    blur_f32 (amap (fun x => mul32 x x) (amap float_of_u8 gray))
             (kernel_size, kernel_size) in
  local_var <- lift (np_binop sub32 local_sq_mean
                       (amap (fun x => mul32 x x) local_mean)) ;;
  let local_var := amap (fun x => np_maximum x 0%float) local_var in
  local_var <- normalize div32 local_var ;;
  fused <- lift (if String.eqb prediction_class "cancer"
                 then weighted_sum 0.4 magnitude 0.6 local_var
                 else weighted_sum 0.6 magnitude 0.4 local_var) ;;
  let heatmap := GaussianBlur_f32 (amap to_f32 fused) (31, 31)%nat 0%float in
  heatmap <- normalize div32 heatmap ;;
  let heatmap_colored := amap jet_rgb heatmap in
  let heatmap_colored := amap to_uint8_rgb heatmap_colored in
  overlay <- lift (cv2_addWeighted img_rgb (1 - alpha)%float heatmap_colored alpha 0%float) ;;
  let overlay_bgr := cvtColor_RGB2BGR overlay in
  ret {| img_rgb := img_rgb; gray := gray; blurred := blurred;
         sobelx := sobelx; sobely := sobely; magnitude := magnitude;
         local_mean := local_mean; local_sq_mean := local_sq_mean;
         local_var := local_var; fused := fused; heatmap := heatmap;
         heatmap_colored := heatmap_colored; overlay := overlay;
         overlay_bgr := overlay_bgr |}.

(** [generate_simple_heatmap(image_path, output_path, prediction_class, alpha)].
    The value [cv2.imwrite] returns is dropped, as on line 82. *)
Definition generate_simple_heatmap (image_path output_path : path)
    (prediction_class : string) (alpha : float) : M path :=
  img <- cv2_imread image_path ;;
  match img with
  | None => raise (ValueError ("Could not load image: " ++ image_path))
  | Some img =>
      L <- heatmap_pipeline img prediction_class alpha ;;
      _ <- cv2_imwrite output_path (overlay_bgr L) ;;
      ret output_path
  end.

Definition class_names : list string := ["cancer"%string; "normal"%string].

(** [generate_gradcam_heatmap(model_path, image_path, output_path, target_class)];
    [target_class] is [None], 0 or 1.  The inner call leaves [alpha] at its
    default, 0.5. *)
Definition generate_gradcam_heatmap (model_path image_path output_path : path)
    (target_class : option Z) : M path :=
  probs <- (fun s => (yolo_probs (world s) model_path image_path, s)) ;;
  i <- lift (np_argmax probs) ;;
  match nth_error class_names i with
  | None => raise (IndexError "list index out of range")
  | Some predicted_class =>
      generate_simple_heatmap image_path output_path predicted_class 0.5%float
  end.

(** The call raised. *)
Definition raises {A} (r : outcome A * State) : Prop :=
  exists e, fst r = Raise e.

(** The source path cannot be read and decoded as an image:
    [cv2.imread] returns [None]. *)
Definition unreadable (image_path : path) (s : State) : Prop :=
  fst (cv2_imread image_path s) = Ok None.

End Gradcam.

(** ** utils/yolo_detector.py *)

(** [l[i]] for a list or a one-dimensional array. *)
Definition py_getitem {A} (l : list A) (i : nat) : outcome A :=
  match nth_error l i with
  | Some x => Ok x
  | None => Raise (IndexError "index out of range")
  end.

(** The builtin [max(a, b)]: [b] when [b > a], else [a]. *)
Definition py_max (a b : float) : float := if (a <? b)%float then b else a.

(** The dict that [BoneCancerDetector.predict] returns. *)
Module Results.
Record t : Type := mk {
  prediction_class : string;
  confidence_cancer : float;
  confidence_normal : float;
  max_confidence : float
}.
End Results.

Section Detector.
Context {lib : Cv2}.

(** [BoneCancerDetector(model_path).predict(image_path)]: the constructor
    loads the model and sets [class_names] to the same two names as
    [generate_gradcam_heatmap]. *)
Definition BoneCancerDetector_predict (model_path image_path : path)
  : M Results.t :=
  probs <- (fun s => (yolo_probs (world s) model_path image_path, s)) ;;
  confidence_cancer <- lift (py_getitem probs 0) ;;
  confidence_normal <- lift (py_getitem probs 1) ;;
  i <- lift (np_argmax probs) ;;
  predicted_class <- lift (py_getitem class_names i) ;;
  ret {| Results.prediction_class := predicted_class;
         Results.confidence_cancer := confidence_cancer;
         Results.confidence_normal := confidence_normal;
         Results.max_confidence := py_max confidence_cancer confidence_normal |}.

End Detector.

(** ** routes/predict.py and config.py: the upload filter *)

(** [Config.ALLOWED_EXTENSIONS]. *)
Definition ALLOWED_EXTENSIONS : list string :=
  ["png"%string; "jpg"%string; "jpeg"%string].

(** [c in s] for a one-character string [c]. *)
Fixpoint str_contains (c : ascii) (s : string) : bool :=
  match s with
  | EmptyString => false
  | String x rest => Ascii.eqb x c || str_contains c rest
  end.

(** [s.rsplit(c, 1)]: [s] alone when it has no [c], else what is before and
    what is after its last [c]. *)
Fixpoint rsplit_last (c : ascii) (s : string) : option (string * string) :=
  match s with
  | EmptyString => None
  | String x rest =>
      match rsplit_last c rest with
      | Some (before, after) => Some (String x before, after)
      | None => if Ascii.eqb x c then Some (EmptyString, rest) else None
      end
  end.

Definition str_rsplit1 (c : ascii) (s : string) : list string :=
  match rsplit_last c s with
  | Some (before, after) => [before; after]
  | None => [s]
  end.

(** [s.lower()] on the letters A to Z; every other byte is kept.  (No
    character outside A to Z has a lower case among the letters of the allowed
    extensions.) *)
Definition lower_ascii (x : ascii) : ascii :=
  let n := nat_of_ascii x in
  if (65 <=? n)%nat && (n <=? 90)%nat then ascii_of_nat (n + 32) else x.

Fixpoint str_lower (s : string) : string :=
  match s with
  | EmptyString => EmptyString
  | String x rest => String (lower_ascii x) (str_lower rest)
  end.

(** [x in xs] for strings. *)
Definition str_in (x : string) (xs : list string) : bool :=
  existsb (String.eqb x) xs.

(** [allowed_file(filename)]:
    ['.' in filename and filename.rsplit('.', 1)[1].lower() in ALLOWED_EXTENSIONS];
    [and] does not evaluate its right operand when the left one is false. *)
Definition allowed_file (filename : string) : outcome bool :=
  if str_contains "." filename
  then match py_getitem (str_rsplit1 "." filename) 1 with
       | Ok ext => Ok (str_in (str_lower ext) ALLOWED_EXTENSIONS)
       | Raise e => Raise e
       end
  else Ok false.

(** ** routes/predict.py: the routes *)

(** [os.path.basename(p)]: what follows the last slash. *)
Definition basename (p : string) : string :=
  match rsplit_last "/" p with
  | Some (_, tail) => tail
  | None => p
  end.

Definition ends_with_slash (p : string) : bool :=
  match rsplit_last "/" p with
  | Some (_, EmptyString) => true
  | _ => false
  end.

(** [os.path.join(a, b)] on POSIX: [b] when it is absolute, else [a] and [b]
    with one slash between them unless [a] is empty or ends with a slash. *)
Definition path_join (a b : string) : string :=
  if String.prefix "/" b then b
  else if String.eqb a "" || ends_with_slash a then (a ++ b)%string
  else (a ++ "/" ++ b)%string.

(** [str(n)] for a non-negative integer. *)
Definition str_of_nat (n : nat) : string := NilEmpty.string_of_uint (Nat.to_uint n).

(** A row of the table of [models.Prediction]; [created_at] is left out. *)
Module Row.
Record t : Type := mk {
  id : nat;
  user_id : nat;
  original_image_path : path;
  heatmap_image_path : path;
  prediction_class : string;
  confidence_cancer : float;
  confidence_normal : float;
  report_path : option path
}.
End Row.

(** An uploaded file ([werkzeug.FileStorage]). *)
Record FileStorage : Type := mkFile {
  filename : string;
  stream : bytes
}.

(** The keys of [session] that the routes use. *)
Record Session : Type := mkSession {
  session_user_id : option nat;
  session_last_prediction_id : option nat
}.

(** The entries of [current_app.config] that the routes use. *)
Record AppConfig : Type := mkConfig {
  ORIGINAL_FOLDER : path;
  HEATMAP_FOLDER : path;
  MODEL_PATH : path
}.

(** What a route works on: the files, the table, the session, and the
    messages flashed so far with their categories. *)
Record App : Type := mkApp {
  app_state : State;
  db : list Row.t;
  session : Session;
  flashes : list (string * string)
}.

Inductive app_exn : Type :=
| LibError (e : exn)
| KeyError (key : string)
| OSError (msg : string).

Inductive app_outcome (A : Type) : Type :=
| Returned (a : A)
| Raised (e : app_exn).
Arguments Returned {A} a.
Arguments Raised {A} e.

(** What a route answers: a redirect to an endpoint (with its
    [prediction_id]), the results page, or the 404 of [get_or_404]. *)
Inductive Response : Type :=
| RedirectTo (endpoint : string) (prediction_id : option nat)
| RenderResults (prediction : Row.t) (original_image heatmap_image : string)
| NotFound.

Definition MA (A : Type) : Type := App -> app_outcome A * App.

Definition retA {A} (a : A) : MA A := fun app => (Returned a, app).
Definition raiseA {A} (e : app_exn) : MA A := fun app => (Raised e, app).
Definition bindA {A B} (c : MA A) (k : A -> MA B) : MA B :=
  fun app => match c app with
             | (Returned a, app') => k a app'
             | (Raised e, app') => (Raised e, app')
             end.

Notation "x <~ c ;; k" := (bindA c (fun x => k))
  (at level 61, c at next level, right associativity).

(** [try: body except Exception as e: handler(e)]; what [body] did before it
    raised stays done. *)
Definition try_except {A} (body : MA A) (handler : app_exn -> MA A) : MA A :=
  fun app => match body app with
             | (Returned a, app') => (Returned a, app')
             | (Raised e, app') => handler e app'
             end.

(** A call into [utils], on the files of the application. *)
Definition call_utils {A} (c : M A) : MA A :=
  fun app =>
    let '(r, s') := c (app_state app) in
    let app' := {| app_state := s'; db := db app; session := session app;
                   flashes := flashes app |} in
    match r with
    | Ok a => (Returned a, app')
    | Raise e => (Raised (LibError e), app')
    end.

(** [flash(message, category)]. *)
Definition flash (message category : string) : MA unit :=
  fun app => (Returned tt,
              {| app_state := app_state app; db := db app; session := session app;
                 flashes := flashes app ++ [(message, category)] |}).

(** [session['user_id']]. *)
Definition session_get_user_id : MA nat :=
  fun app => match session_user_id (session app) with
             | Some uid => (Returned uid, app)
             | None => (Raised (KeyError "user_id"), app)
             end.

(** [session['last_prediction_id'] = pid]. *)
Definition session_set_last_prediction_id (pid : nat) : MA unit :=
  fun app => (Returned tt,
              {| app_state := app_state app; db := db app;
                 session := {| session_user_id := session_user_id (session app);
                               session_last_prediction_id := Some pid |};
                 flashes := flashes app |}).

(** [file.save(dst)]: the bytes of the upload are written to [dst], or
    [OSError] is raised when [dst] cannot be opened for writing. *)
Definition file_save (file : FileStorage) (dst : path) : MA unit :=
  fun app =>
    let s := app_state app in
    if writable (world s) dst
    then (Returned tt,
          {| app_state := {| world := fs_write dst (stream file) (world s);
                             trace := trace s ++ [EvWrite dst] |};
             db := db app; session := session app; flashes := flashes app |})
    else (Raised (OSError "No such file or directory"), app).

(** The primary key of the next row: one more than the largest in use. *)
Definition next_id (rows : list Row.t) : nat :=
  S (fold_right Nat.max 0%nat (map Row.id rows)).

(** [db.session.add(prediction); db.session.commit()]: the row gets its
    [id] (as SQLite numbers an integer primary key) and joins the table; the
    commit is taken to succeed. *)
Definition db_add_commit (row : nat -> Row.t) : MA Row.t :=
  fun app =>
    let r := row (next_id (db app)) in
    (Returned r,
     {| app_state := app_state app; db := db app ++ [r]; session := session app;
        flashes := flashes app |}).

(** [Prediction.query.get(prediction_id)]. *)
Definition db_get (pid : nat) (rows : list Row.t) : option Row.t :=
  find (fun r => Nat.eqb (Row.id r) pid) rows.

(** [str(e)]. *)
Definition str_of_exn (e : app_exn) : string :=
  match e with
  | LibError (ValueError m) | LibError (CvError m) | LibError (IndexError m) => m
  | KeyError k => ("'" ++ k ++ "'")%string
  | OSError m => m
  end.

(** The name under which [upload] stores an image:
    [f"{user_id}_{timestamp}_{filename}"]. *)
Definition unique_name (uid : nat) (timestamp filename : string) : string :=
  (str_of_nat uid ++ "_" ++ timestamp ++ "_" ++ filename)%string.

Section Routes.
Context {lib : Cv2}.
Variable cfg : AppConfig.
(** [werkzeug.utils.secure_filename]. *)
Variable secure_filename : string -> string.

(** [upload()], for the value [request.files.get('file')] and the string
    that [datetime.now().strftime('%Y%m%d_%H%M%S')] gives during the call. *)
Definition upload (request_file : option FileStorage) (timestamp : string)
  : MA Response :=
  match request_file with
  | None =>
      _ <~ flash "No file uploaded" "error" ;;
      retA (RedirectTo "predict.dashboard" None)
  | Some file =>
      if String.eqb (filename file) ""
      then
        _ <~ flash "No file selected" "error" ;;
        retA (RedirectTo "predict.dashboard" None)
      else
        allowed <~ call_utils (lift (allowed_file (filename file))) ;;
        if negb allowed
        then
          _ <~ flash "Invalid file type. Please upload PNG, JPG, or JPEG images."
                     "error" ;;
          retA (RedirectTo "predict.dashboard" None)
        else
          try_except
            (let filename := secure_filename (filename file) in
             uid <~ session_get_user_id ;;
             let unique_filename :=
               (str_of_nat uid ++ "_" ++ timestamp ++ "_" ++ filename)%string in
             let original_path := path_join (ORIGINAL_FOLDER cfg) unique_filename in
             _ <~ file_save file original_path ;;
             results <~ call_utils
                          (BoneCancerDetector_predict (MODEL_PATH cfg) original_path) ;;
             let heatmap_filename := ("heatmap_" ++ unique_filename)%string in
             let heatmap_path := path_join (HEATMAP_FOLDER cfg) heatmap_filename in
             let target_class :=
               if String.eqb (Results.prediction_class results) "cancer"
               then 0%Z else 1%Z in
             _ <~ call_utils
                    (generate_gradcam_heatmap (MODEL_PATH cfg) original_path
                       heatmap_path None) ;;
             uid' <~ session_get_user_id ;;
             prediction <~ db_add_commit
               (fun pid =>
                  {| Row.id := pid;
                     Row.user_id := uid';
                     Row.original_image_path := original_path;
                     Row.heatmap_image_path := heatmap_path;
                     Row.prediction_class := Results.prediction_class results;
                     Row.confidence_cancer := Results.confidence_cancer results;
                     Row.confidence_normal := Results.confidence_normal results;
                     Row.report_path := None |}) ;;
             _ <~ session_set_last_prediction_id (Row.id prediction) ;;
             _ <~ flash "Analysis complete!" "success" ;;
             retA (RedirectTo "predict.results" (Some (Row.id prediction))))
            (fun e =>
               _ <~ flash ("Error processing image: " ++ str_of_exn e) "error" ;;
               retA (RedirectTo "predict.dashboard" None))
  end.

(** [results(prediction_id)]. *)
Definition results (prediction_id : nat) : MA Response :=
  fun app =>
    match db_get prediction_id (db app) with
    | None => (Returned NotFound, app)
    | Some prediction =>
        (uid <~ session_get_user_id ;;
         if negb (Nat.eqb (Row.user_id prediction) uid)
         then
           _ <~ flash "Unauthorized access" "error" ;;
           retA (RedirectTo "predict.dashboard" None)
         else
           let original_rel :=
             path_join (path_join "uploads" "original")
                       (basename (Row.original_image_path prediction)) in
           let heatmap_rel :=
             path_join (path_join "uploads" "heatmaps")
                       (basename (Row.heatmap_image_path prediction)) in
           retA (RenderResults prediction original_rel heatmap_rel)) app
    end.

End Routes.

(** ** What the theorems ask of the libraries *)

(** [cv2.imread] returns [None] or an image with at least one pixel. *)
Class DecodeLaws (lib : Cv2) : Prop := {
  decode_nonempty :
    forall b img, imread_decode b = Some img -> List.concat img <> []
}.

(** The four filters return an array of the shape of their input. *)
Class ShapeLaws (lib : Cv2) : Prop := {
  GaussianBlur_u8_dims :
    forall a, dims (GaussianBlur_u8 a (21, 21)%nat 0%float) = dims a;
  Sobel_64F_dims :
    forall a dx dy, dims (Sobel_64F a dx dy 3%nat) = dims a;
  blur_f32_dims :
    forall a, dims (blur_f32 a (31, 31)%nat) = dims a;
  GaussianBlur_f32_dims :
    forall a, dims (GaussianBlur_f32 a (31, 31)%nat 0%float) = dims a
}.

(** The filters on a uniform array: smoothing gives a uniform array, a
    derivative is zero everywhere, the box mean of a grey level (and of its
    square) is that value, and smoothing the zero field gives the zero field. *)
Class UniformLaws (lib : Cv2) : Prop := {
  GaussianBlur_u8_uniform :
    forall h w c, exists c',
      GaussianBlur_u8 (full h w c) (21, 21)%nat 0%float = full h w c';
  Sobel_64F_uniform :
    forall h w c dx dy, (dx + dy = 1)%nat ->
      Sobel_64F (full h w c) dx dy 3%nat = full h w 0%float;
  blur_f32_uniform :
    forall h w g,
      blur_f32 (full h w (float_of_u8 g)) (31, 31)%nat
      = full h w (float_of_u8 g);
  blur_f32_uniform_sq :
    forall h w g,
      blur_f32 (full h w (mul32 (float_of_u8 g) (float_of_u8 g))) (31, 31)%nat
      = full h w (mul32 (float_of_u8 g) (float_of_u8 g));
  GaussianBlur_f32_zero :
    forall h w,
      GaussianBlur_f32 (full h w 0%float) (31, 31)%nat 0%float
      = full h w 0%float
}.

(** [cv2.addWeighted] with weights 1 and 0 returns the operand of weight 1. *)
Class BlendLaws (lib : Cv2) : Prop := {
  addWeighted_u8_first :
    forall a b, addWeighted_u8 a 1%float b 0%float 0%float = a;
  addWeighted_u8_second :
    forall a b, addWeighted_u8 a 0%float b 1%float 0%float = b
}.

(** ** A reference implementation of the libraries

    Small executable versions of the library functions: correlation with
    integer kernels under OpenCV's default border (reflection about the edge
    pixel), a raw image format, the jet colour ramps.  The laws above are
    proved for it, and the examples run on it. *)

(** [BORDER_REFLECT_101]: the index of the pixel that stands for index [i] of
    an axis of length [n]. *)
Definition reflect101 (n : nat) (i : Z) : nat :=
  if (n <=? 1)%nat then 0%nat
  else
    let p := (2 * (Z.of_nat n - 1))%Z in
    let r := (i mod p)%Z in
    Z.to_nat (if (r <? Z.of_nat n)%Z then r else p - r)%Z.

Definition at101 {T} (c : T) (a : array T) (i j : Z) : T :=
  let row := nth (reflect101 (List.length a) i) a [] in
  nth (reflect101 (List.length row) j) row c.

Definition offsets (k : nat) : list Z :=
  map (fun d => Z.of_nat d - Z.of_nat (k / 2))%Z (seq 0 k).

(** The [kh] by [kw] neighbourhood of the pixel [c] at row [i], column [j]. *)
Definition window {T} (kh kw : nat) (a : array T) (i j : nat) (c : T) : array T :=
  map (fun di =>
         map (fun dj => at101 c a (Z.of_nat i + di) (Z.of_nat j + dj))
             (offsets kw))
      (offsets kh).

Definition imap {A B} (f : nat -> A -> B) (l : list A) : list B :=
  map (fun ix => f (fst ix) (snd ix)) (combine (seq 0 (List.length l)) l).

Definition filter2D {T R} (kh kw : nat) (f : array T -> R) (a : array T) : array R :=
  imap (fun i row => imap (fun j c => f (window kh kw a i j c)) row) a.

Definition wsum (ws vs : list Z) : Z :=
  fold_left Z.add (zip_with Z.mul ws vs) 0%Z.

Definition wsum2 (wr wc : list Z) (win : array Z) : Z :=
  wsum wr (map (wsum wc) win).

Definition fsum (vs : list float) : float := fold_left PrimFloat.add vs 0%float.

Definition float_of_Z (z : Z) : float :=
  if (z <? 0)%Z then (- of_uint63 (Uint63.of_Z (- z)))%float
  else of_uint63 (Uint63.of_Z z).

(** Row [n] of Pascal's triangle: the integer Gaussian kernel of [n + 1] taps. *)
Fixpoint binomial_row (n : nat) : list Z :=
  match n with
  | O => [1%Z]
  | S n' => let r := binomial_row n' in zip_with Z.add (0%Z :: r) (r ++ [0%Z])
  end.

Definition ref_GaussianBlur_u8 (a : array byte) (ksize : nat * nat) (sigma : float)
  : array byte :=
  let '(kw, kh) := ksize in
  let wr := binomial_row (kh - 1) in
  let wc := binomial_row (kw - 1) in
  let total := (2 ^ Z.of_nat ((kh - 1) + (kw - 1)))%Z in
  filter2D kh kw
    (fun win => u8_of_Z ((2 * wsum2 wr wc (amap Z_of_u8 win) + total) / (2 * total)))
    a.

Definition sobel_taps (order : nat) : list Z :=
  match order with
  | O => [1; 2; 1]%Z
  | _ => [-1; 0; 1]%Z
  end.

Definition ref_Sobel_64F (a : array byte) (dx dy ksize : nat) : array float :=
  filter2D 3 3
    (fun win => float_of_Z (wsum2 (sobel_taps dy) (sobel_taps dx) (amap Z_of_u8 win)))
    a.

Definition ref_blur_f32 (a : array float) (ksize : nat * nat) : array float :=
  let '(kw, kh) := ksize in
  filter2D kh kw
    (fun win => to_f32 (fsum (List.concat win) / float_of_Z (Z.of_nat (kh * kw))))
    a.

Definition ref_GaussianBlur_f32 (a : array float) (ksize : nat * nat) (sigma : float)
  : array float :=
  let '(kw, kh) := ksize in
  let wr := map float_of_Z (binomial_row (kh - 1)) in
  let wc := map float_of_Z (binomial_row (kw - 1)) in
  let total := float_of_Z (2 ^ Z.of_nat ((kh - 1) + (kw - 1))) in
  filter2D kh kw
    (fun win =>
       to_f32 (fsum (zip_with PrimFloat.mul wr
                       (map (fun row => fsum (zip_with PrimFloat.mul wc row)) win))
               / total))
    a.

(** The 8-bit luma of OpenCV's fixed-point conversion. *)
Definition ref_gray_of_bgr (p : pixel) : byte :=
  let '(b, g, r) := p in
  u8_of_Z ((Z_of_u8 b * 1868 + Z_of_u8 g * 9617 + Z_of_u8 r * 4899 + 8192) / 16384).

Definition clamp01 (x : float) : float :=
  if (x <? 0)%float then 0%float else if (1 <? x)%float then 1%float else x.

Definition fmin (x y : float) : float := if (x <? y)%float then x else y.

(** The red, green and blue ramps of the jet colormap; alpha is 1. *)
Definition ref_cm_jet (v : float) : float * float * float * float :=
  let v := clamp01 v in
  (clamp01 (fmin (4 * v - 1.5) (4.5 - 4 * v)),
   clamp01 (fmin (4 * v - 0.5) (3.5 - 4 * v)),
   clamp01 (fmin (4 * v + 0.5) (2.5 - 4 * v)),
   1)%float.

(** The nearest integer, ties to even; 0 for NaN and the infinities. *)
Definition round_half_even (x : float) : Z :=
  match Prim2SF x with
  | S754_finite s m e =>
      let q :=
        if (0 <=? e)%Z then (Zpos m * 2 ^ e)%Z
        else
          let d := (2 ^ (- e))%Z in
          let q := (Zpos m / d)%Z in
          let r := (Zpos m mod d)%Z in
          if (d <? 2 * r)%Z then (q + 1)%Z
          else if (d =? 2 * r)%Z && Z.odd q then (q + 1)%Z
          else q in
      if s then (- q)%Z else q
  | _ => 0%Z
  end.

Definition saturate_u8 (z : Z) : byte := u8_of_Z (Z.max 0 (Z.min 255 z)).

Definition ref_addWeighted_u8 (a : byte) (alpha : float) (b : byte)
    (beta gamma : float) : byte :=
  saturate_u8 (round_half_even (float_of_u8 a * alpha + float_of_u8 b * beta + gamma)).

(** A raw image format: a pixel is the byte 1 followed by its three channels,
    and the byte 0 ends a row. *)
Definition raw_encode (img : array pixel) : bytes :=
  List.concat
    (map (fun row =>
            List.concat (map (fun p : pixel =>
                                let '(c0, c1, c2) := p in [x01; c0; c1; c2]) row)
            ++ [x00])
         img).

Fixpoint raw_rows (bs : bytes) (row : list pixel) : option (array pixel) :=
  match bs with
  | [] => match row with [] => Some [] | _ :: _ => None end
  | t :: rest =>
      if Byte.eqb t x00
      then option_map (cons (rev row)) (raw_rows rest [])
      else
        match rest with
        | c0 :: c1 :: c2 :: rest' =>
            if Byte.eqb t x01 then raw_rows rest' ((c0, c1, c2) :: row) else None
        | _ => None
        end
  end.

Definition valid_image (img : array pixel) : bool :=
  match img with
  | [] => false
  | r :: rs =>
      (0 <? List.length r)%nat
      && forallb (fun r' => Nat.eqb (List.length r') (List.length r)) rs
  end.

Definition raw_decode (bs : bytes) : option (array pixel) :=
  match raw_rows bs [] with
  | Some img => if valid_image img then Some img else None
  | None => None
  end.

Definition ends_with (suffix s : string) : bool :=
  let n := String.length s in
  let m := String.length suffix in
  (m <=? n)%nat && String.eqb (substring (n - m) m s) suffix.

Definition ref_find_encoder (filename : path) : option (array pixel -> bytes) :=
  if ends_with ".png" filename || ends_with ".jpg" filename
     || ends_with ".jpeg" filename
  then Some raw_encode
  else None.

(** A stand-in for the classifier: it needs the model file and a readable
    image, and scores "cancer" by the first channel of the first pixel. *)
Definition ref_yolo_probs (w : World) (model_path image_path : path)
  : outcome (list float) :=
  match files w model_path, files w image_path with
  | Some _, Some b =>
      match raw_decode b with
      | Some (((c0, _, _) :: _) :: _) =>
          let p := (float_of_u8 c0 / 255)%float in Ok [p; (1 - p)%float]
      | _ => Raise (ValueError "cannot identify image file")
      end
  | _, _ => Raise (ValueError "No such file or directory")
  end.

Definition ref_lib : Cv2 := {|
  imread_decode := raw_decode;
  find_encoder := ref_find_encoder;
  gray_of_bgr := ref_gray_of_bgr;
  GaussianBlur_u8 := ref_GaussianBlur_u8;
  Sobel_64F := ref_Sobel_64F;
  blur_f32 := ref_blur_f32;
  GaussianBlur_f32 := ref_GaussianBlur_f32;
  cm_jet := ref_cm_jet;
  addWeighted_u8 := ref_addWeighted_u8;
  yolo_probs := ref_yolo_probs
|}.

(** ** Sample inputs *)

(** A 2 by 4 image with a dark and a bright half, and a uniform 2 by 2 image. *)
Definition xray_img : array pixel :=
  [[(x00, x00, x00); (x00, x00, x00); (xff, xff, xff); (xff, xff, xff)];
   [(x00, x00, x00); (x00, x00, x00); (xff, xff, xff); (xff, xff, xff)]].

Definition blank_img : array pixel := full 2 2 (x40, x80, xc0).

Definition xray_path : path := "xray.png"%string.
Definition blank_path : path := "blank.png"%string.
Definition notes_path : path := "notes.txt"%string.
Definition weights_path : path := "best.pt"%string.
(** Output paths: a usual one, one without an extension, and one in a
    directory that does not exist. *)
Definition heatmap_path : path := "heatmap_xray.png"%string.
Definition bare_path : path := "heatmap_xray"%string.
Definition missing_dir_path : path := "/missing/heatmap_xray.png"%string.

(** A file system with the two images, a text file and a model file; nothing
    can be written under [/missing/]. *)
Definition sample_world : World :=
  {| files := fun p =>
       if String.eqb p xray_path then Some (raw_encode xray_img)
       else if String.eqb p blank_path then Some (raw_encode blank_img)
       else if String.eqb p weights_path then Some [x01]
       else if String.eqb p notes_path then Some [x68; x69]
       else None;
     writable := fun p => negb (String.prefix "/missing/" p) |}.

Definition cancer : string := "cancer"%string.
Definition normal : string := "normal"%string.

Definition sample_state : State := {| world := sample_world; trace := [] |}.

(** A second file system that holds the same image and nothing else, in a
    state that already has a history. *)
Definition other_state : State :=
  {| world := {| files := fun p =>
                   if String.eqb p xray_path then Some (raw_encode xray_img)
                   else None;
                 writable := fun _ => true |};
     trace := [EvWrite notes_path] |}.

(** The reference libraries with a classifier of three classes, the third of
    which wins. *)
Definition three_class_lib : Cv2 := {|
  imread_decode := raw_decode;
  find_encoder := ref_find_encoder;
  gray_of_bgr := ref_gray_of_bgr;
  GaussianBlur_u8 := ref_GaussianBlur_u8;
  Sobel_64F := ref_Sobel_64F;
  blur_f32 := ref_blur_f32;
  GaussianBlur_f32 := ref_GaussianBlur_f32;
  cm_jet := ref_cm_jet;
  addWeighted_u8 := ref_addWeighted_u8;
  yolo_probs := fun _ _ _ => Ok [0.125; 0.25; 0.625]%float
|}.

(** A stand-in for [werkzeug.utils.secure_filename]: letters, digits, dots,
    dashes and underscores are kept, every other byte becomes an underscore. *)
Definition safe_char (x : ascii) : ascii :=
  let n := nat_of_ascii x in
  if ((48 <=? n) && (n <=? 57)) || ((65 <=? n) && (n <=? 90))
     || ((97 <=? n) && (n <=? 122)) || (n =? 45) || (n =? 46) || (n =? 95)
  then x else "_"%char.

Fixpoint ref_secure_filename (s : string) : string :=
  match s with
  | EmptyString => EmptyString
  | String x rest => String (safe_char x) (ref_secure_filename rest)
  end.

Definition sample_cfg : AppConfig :=
  {| ORIGINAL_FOLDER := "static/uploads/original"%string;
     HEATMAP_FOLDER := "static/uploads/heatmaps"%string;
     MODEL_PATH := weights_path |}.

Definition sample_upload : FileStorage :=
  {| filename := "knee scan.png"; stream := raw_encode xray_img |}.

Definition sample_timestamp : string := "20240518_101530"%string.

(** User 7 is logged in; the table is empty. *)
Definition sample_app : App :=
  {| app_state := sample_state;
     db := [];
     session := {| session_user_id := Some 7%nat;
                   session_last_prediction_id := None |};
     flashes := [] |}.

(** The application after user 7 has uploaded [sample_upload]. *)
Definition uploaded_app : App :=
  Eval vm_compute in
    snd (upload (lib := ref_lib) sample_cfg ref_secure_filename
           (Some sample_upload) sample_timestamp sample_app).




(** * Properties *)

(** ** Arrays and shapes *)

Lemma dims_eqb_refl (d : list nat) : dims_eqb d d = true.
Proof.
  induction d as [|x d IH]; simpl; [reflexivity|].
  now rewrite Nat.eqb_refl, IH.
Qed.

Lemma dims_eqb_eq (d1 d2 : list nat) : dims_eqb d1 d2 = true -> d1 = d2.
Proof.
  revert d2; induction d1 as [|x d1 IH]; intros [|y d2]; simpl;
    try discriminate; [reflexivity|].
  intros H. apply andb_prop in H as [Hx Hd].
  apply Nat.eqb_eq in Hx. now rewrite Hx, (IH _ Hd).
Qed.

Lemma dims_amap {A B} (f : A -> B) (a : array A) : dims (amap f a) = dims a.
Proof.
  unfold dims, amap. rewrite map_map. apply map_ext.
  intros row. apply length_map.
Qed.

Lemma length_zip_with {A B C} (f : A -> B -> C) (l1 : list A) (l2 : list B) :
  List.length l1 = List.length l2 ->
  List.length (zip_with f l1 l2) = List.length l1.
Proof.
  revert l2; induction l1 as [|x l1 IH]; intros [|y l2]; simpl;
    try discriminate; [reflexivity|].
  intros H. f_equal. apply IH. now injection H.
Qed.

Lemma dims_zip_with {A B C} (f : A -> B -> C) (a : array A) (b : array B) :
  dims a = dims b -> dims (zip_with (zip_with f) a b) = dims a.
Proof.
  revert b; induction a as [|r a IH]; intros [|r' b]; simpl;
    try discriminate; [reflexivity|].
  intros H. injection H as Hr Ha.
  f_equal; [now apply length_zip_with | now apply IH].
Qed.

Lemma np_binop_ok {A B C} (f : A -> B -> C) (a : array A) (b : array B) :
  dims a = dims b -> np_binop f a b = Ok (zip_with (zip_with f) a b).
Proof.
  intros H. unfold np_binop. now rewrite H, dims_eqb_refl.
Qed.

Lemma np_binop_inv {A B C} (f : A -> B -> C) (a : array A) (b : array B) c :
  np_binop f a b = Ok c ->
  dims a = dims b /\ c = zip_with (zip_with f) a b.
Proof.
  unfold np_binop. destruct (dims_eqb (dims a) (dims b)) eqn:E; [|discriminate].
  intros H. injection H as <-. split; [now apply dims_eqb_eq | reflexivity].
Qed.

Lemma concat_nil_dims {A B} (a : array A) (b : array B) :
  dims a = dims b -> List.concat a = [] -> List.concat b = [].
Proof.
  revert b; induction a as [|r a IH]; intros [|r' b]; simpl;
    try discriminate; [reflexivity|].
  intros H Hc. injection H as Hr Ha.
  apply app_eq_nil in Hc as [Hr0 Hc]. subst r.
  destruct r'; [|discriminate]. simpl. now apply IH.
Qed.

Lemma concat_dims_nonempty {A B} (a : array A) (b : array B) :
  dims a = dims b -> List.concat a <> [] -> List.concat b <> [].
Proof.
  intros H Ha Hb. apply Ha. now apply (concat_nil_dims b a).
Qed.

Lemma amap_full {A B} (f : A -> B) (h w : nat) (c : A) :
  amap f (full h w c) = full h w (f c).
Proof.
  unfold amap, full. now rewrite !map_repeat.
Qed.

Lemma zip_with_repeat {A B C} (f : A -> B -> C) (n : nat) (x : A) (y : B) :
  zip_with f (repeat x n) (repeat y n) = repeat (f x y) n.
Proof.
  induction n as [|n IH]; simpl; [reflexivity | now rewrite IH].
Qed.

Lemma zip_with_full {A B C} (f : A -> B -> C) (h w : nat) (x : A) (y : B) :
  zip_with (zip_with f) (full h w x) (full h w y) = full h w (f x y).
Proof.
  unfold full. now rewrite zip_with_repeat, zip_with_repeat.
Qed.

Lemma dims_full {A} (h w : nat) (c : A) : dims (full h w c) = repeat w h.
Proof.
  unfold dims, full. now rewrite map_repeat, repeat_length.
Qed.

Lemma np_binop_full {A B C} (f : A -> B -> C) (h w : nat) (x : A) (y : B) :
  np_binop f (full h w x) (full h w y) = Ok (full h w (f x y)).
Proof.
  rewrite np_binop_ok by now rewrite !dims_full.
  now rewrite zip_with_full.
Qed.

Lemma concat_full {A} (h w : nat) (c : A) :
  List.concat (full h w c) = repeat c (h * w).
Proof.
  unfold full. induction h as [|h IH]; simpl; [reflexivity|].
  now rewrite IH, repeat_app.
Qed.

(** ** Maxima and normalisation *)

Lemma np_maximum_same (x : float) : np_maximum x x = x.
Proof. unfold np_maximum. now destruct (_ || _). Qed.

Lemma fold_np_maximum_repeat (c : float) (n : nat) :
  fold_left np_maximum (repeat c n) c = c.
Proof.
  induction n as [|n IH]; simpl; [reflexivity|].
  now rewrite np_maximum_same.
Qed.

Lemma np_max_full (h w : nat) (c : float) :
  (0 < h)%nat -> (0 < w)%nat -> np_max (full h w c) = Ok c.
Proof.
  intros Hh Hw. unfold np_max. rewrite concat_full.
  destruct (h * w)%nat as [|n] eqn:E; [nia|].
  simpl. now rewrite fold_np_maximum_repeat.
Qed.

Lemma np_max_ok (a : array float) :
  List.concat a <> [] -> exists m, np_max a = Ok m.
Proof.
  intros H. unfold np_max. destruct (List.concat a); [contradiction|].
  eexists; reflexivity.
Qed.

(** What [normalize] does, by the maximum of its argument. *)
Lemma normalize_run (div : float -> float -> float) (a : array float) (s : State) :
  normalize div a s =
  match np_max a with
  | Ok m =>
      if (0 <? m)%float
      then (Ok (amap (fun x => div x m) a),
            {| world := world s; trace := trace s ++ [EvDivide m] |})
      else (Ok a, s)
  | Raise e => (Raise e, s)
  end.
Proof.
  unfold normalize, bind, lift, np_divide, emit, ret, bind.
  destruct (np_max a) as [m|e] eqn:E; [|reflexivity].
  destruct (0 <? m)%float; [|reflexivity].
  reflexivity.
Qed.

(** ** Runs of the monad *)

Lemma after_nil (s : State) : after s [] = s.
Proof. destruct s. unfold after. simpl. now rewrite app_nil_r. Qed.

Lemma after_after (s : State) (t1 t2 : list event) :
  after (after s t1) t2 = after s (t1 ++ t2).
Proof. unfold after. simpl. now rewrite app_assoc. Qed.

Lemma bind_ok_inv {A B} (c : M A) (k : A -> M B) s b s' :
  bind c k s = (Ok b, s') ->
  exists a s1, c s = (Ok a, s1) /\ k a s1 = (Ok b, s').
Proof.
  unfold bind. destruct (c s) as [[a|e] s1]; [|discriminate].
  intros H. now exists a, s1.
Qed.

Lemma lift_ok_inv {A} (o : outcome A) s a s' :
  lift o s = (Ok a, s') -> o = Ok a /\ s' = s.
Proof. unfold lift. intros H. injection H as -> ->. now split. Qed.

Lemma computes_ret {A} (a : A) : computes (ret a) (Ok a) [].
Proof.
  split; [constructor|]. intros s. unfold ret. now rewrite after_nil.
Qed.

Lemma computes_lift {A} (o : outcome A) : computes (lift o) o [].
Proof.
  split; [constructor|]. intros s. unfold lift. now rewrite after_nil.
Qed.

Lemma computes_bind_ok {A B} (c : M A) (k : A -> M B) a t1 r t2 :
  computes c (Ok a) t1 -> computes (k a) r t2 ->
  computes (bind c k) r (t1 ++ t2).
Proof.
  intros [F1 H1] [F2 H2]. split; [now apply Forall_app|].
  intros s. unfold bind. now rewrite H1, H2, after_after.
Qed.

Lemma computes_bind_raise {A B} (c : M A) (k : A -> M B) e t1 :
  computes c (Raise e) t1 -> computes (bind c k) (Raise e) t1.
Proof.
  intros [F1 H1]. split; [assumption|].
  intros s. unfold bind. now rewrite H1.
Qed.

Lemma computes_bind_ex {A B} (c : M A) (k : A -> M B) :
  (exists r tr, computes c r tr) ->
  (forall a, exists r tr, computes (k a) r tr) ->
  exists r tr, computes (bind c k) r tr.
Proof.
  intros ([a|e] & t1 & H1) Hk.
  - destruct (Hk a) as (r & t2 & H2).
    exists r, (t1 ++ t2). now apply computes_bind_ok with a.
  - exists (Raise e), t1. now apply computes_bind_raise.
Qed.

Lemma computes_bind_total {A B} (c : M A) (k : A -> M B)
    (P : A -> Prop) (Q : B -> Prop) :
  (exists a t1, computes c (Ok a) t1 /\ P a) ->
  (forall a, P a -> exists b t2, computes (k a) (Ok b) t2 /\ Q b) ->
  exists b t, computes (bind c k) (Ok b) t /\ Q b.
Proof.
  intros (a & t1 & H1 & Pa) Hk.
  destruct (Hk a Pa) as (b & t2 & H2 & Qb).
  exists b, (t1 ++ t2). split; [|assumption].
  now apply computes_bind_ok with a.
Qed.

Lemma computes_unique {A} (c : M A) r1 t1 r2 t2 :
  computes c r1 t1 -> computes c r2 t2 -> r1 = r2 /\ t1 = t2.
Proof.
  intros [_ H1] [_ H2].
  pose (s0 := {| world := {| files := fun _ => None; writable := fun _ => false |};
                 trace := [] |}).
  specialize (H1 s0). specialize (H2 s0). rewrite H1 in H2.
  injection H2 as Hr Ht. split; [assumption|].
  exact Ht.
Qed.

(** [normalize] only computes; it divides exactly when the maximum is
    positive, and then by the maximum. *)
Lemma computes_normalize (div : float -> float -> float) (a : array float) :
  computes (normalize div a)
    (match np_max a with
     | Ok m => if (0 <? m)%float then Ok (amap (fun x => div x m) a) else Ok a
     | Raise e => Raise e
     end)
    (match np_max a with
     | Ok m => if (0 <? m)%float then [EvDivide m] else []
     | Raise _ => []
     end).
Proof.
  split.
  - destruct (np_max a) as [m|e]; [|constructor].
    destruct (0 <? m)%float eqn:E; repeat constructor. exact E.
  - intros s. rewrite normalize_run.
    destruct (np_max a) as [m|e]; [|now rewrite after_nil].
    destruct (0 <? m)%float; [reflexivity | now rewrite after_nil].
Qed.

Lemma computes_normalize_ex (div : float -> float -> float) (a : array float) :
  exists r tr, computes (normalize div a) r tr.
Proof. eexists; eexists; apply computes_normalize. Qed.

Lemma computes_normalize_total (div : float -> float -> float) (a : array float) :
  List.concat a <> [] ->
  exists a' tr, computes (normalize div a) (Ok a') tr /\ dims a' = dims a.
Proof.
  intros H. destruct (np_max_ok a H) as (m & Hm).
  pose proof (computes_normalize div a) as C. rewrite Hm in C.
  destruct (0 <? m)%float.
  - eexists; eexists; split; [exact C | apply dims_amap].
  - eexists; eexists; split; [exact C | reflexivity].
Qed.


(** ** The pipeline *)

Section PipelineFacts.
Context {lib : Cv2}.

(** Lines 29 to 81 only compute: whatever the state, the same result and the
    same divisions, each by a positive number. *)
Lemma pipeline_computes (img : array pixel) (pc : string) (alpha : float) :
  exists r tr, computes (heatmap_pipeline img pc alpha) r tr.
Proof.
  unfold heatmap_pipeline. cbv zeta.
  repeat (apply computes_bind_ex;
          [ first [ apply computes_normalize_ex
                  | eexists; eexists; apply computes_lift ]
          | intros ? ]).
  eexists; eexists; apply computes_ret.
Qed.

(** The equations between the local variables of a run that reaches line 81. *)
Lemma pipeline_inv (img : array pixel) (pc : string) (alpha : float)
    (s s' : State) (L : Locals) :
  heatmap_pipeline img pc alpha s = (Ok L, s') ->
  exists sumsq var0 s1 s2,
    img_rgb L = cvtColor_BGR2RGB img /\
    gray L = cvtColor_BGR2GRAY img /\
    blurred L = GaussianBlur_u8 (gray L) (21, 21)%nat 0%float /\
    sobelx L = Sobel_64F (blurred L) 1 0 3 /\
    sobely L = Sobel_64F (blurred L) 0 1 3 /\
    np_binop PrimFloat.add (amap (fun x => x * x)%float (sobelx L))
                           (amap (fun x => x * x)%float (sobely L)) = Ok sumsq /\
    normalize PrimFloat.div (amap PrimFloat.sqrt sumsq) s = (Ok (magnitude L), s1) /\
    local_mean L = blur_f32 (amap float_of_u8 (gray L)) (31, 31)%nat /\
    local_sq_mean L
      = blur_f32 (amap (fun x => mul32 x x) (amap float_of_u8 (gray L))) (31, 31)%nat /\
    np_binop sub32 (local_sq_mean L) (amap (fun x => mul32 x x) (local_mean L))
      = Ok var0 /\
    normalize div32 (amap (fun x => np_maximum x 0%float) var0) s1
      = (Ok (local_var L), s2) /\
    (if String.eqb pc "cancer"
     then weighted_sum 0.4 (magnitude L) 0.6 (local_var L)
     else weighted_sum 0.6 (magnitude L) 0.4 (local_var L)) = Ok (fused L) /\
    normalize div32 (GaussianBlur_f32 (amap to_f32 (fused L)) (31, 31)%nat 0%float) s2
      = (Ok (heatmap L), s') /\
    heatmap_colored L = amap to_uint8_rgb (amap jet_rgb (heatmap L)) /\
    cv2_addWeighted (img_rgb L) (1 - alpha)%float (heatmap_colored L) alpha 0%float
      = Ok (overlay L) /\
    overlay_bgr L = cvtColor_RGB2BGR (overlay L).
Proof.
  unfold heatmap_pipeline. cbv zeta. intros H.
  apply bind_ok_inv in H as (sumsq & t0 & H0 & H).
  apply lift_ok_inv in H0 as [H0 ->].
  apply bind_ok_inv in H as (mag & s1 & H1 & H).
  apply bind_ok_inv in H as (var0 & t1 & H2 & H).
  apply lift_ok_inv in H2 as [H2 ->].
  apply bind_ok_inv in H as (var & s2 & H3 & H).
  apply bind_ok_inv in H as (fus & t2 & H4 & H).
  apply lift_ok_inv in H4 as [H4 ->].
  apply bind_ok_inv in H as (hm & s3 & H5 & H).
  apply bind_ok_inv in H as (ov & t3 & H6 & H).
  apply lift_ok_inv in H6 as [H6 ->].
  unfold ret in H. injection H as <- <-. simpl.
  exists sumsq, var0, s1, s2. repeat split; assumption.
Qed.

(** With filters that keep the shape, lines 29 to 81 raise nothing on an image
    that has a pixel, and every array has the shape of the image. *)
Lemma pipeline_total `{!ShapeLaws lib} (img : array pixel) (pc : string)
    (alpha : float) :
  List.concat img <> [] ->
  exists L tr,
    computes (heatmap_pipeline img pc alpha) (Ok L) tr /\
    dims (overlay_bgr L) = dims img.
Proof.
  intros Hne. unfold heatmap_pipeline. cbv zeta.
  assert (Dg : dims (cvtColor_BGR2GRAY img) = dims img) by apply dims_amap.
  assert (Db : dims (GaussianBlur_u8 (cvtColor_BGR2GRAY img) (21, 21)%nat 0%float)
               = dims img) by now rewrite GaussianBlur_u8_dims.
  apply computes_bind_total with (P := fun a => dims a = dims img).
  { eexists; eexists; split.
    - rewrite np_binop_ok by now rewrite !dims_amap, !Sobel_64F_dims.
      apply computes_lift.
    - rewrite dims_zip_with by now rewrite !dims_amap, !Sobel_64F_dims.
      now rewrite dims_amap, Sobel_64F_dims. }
  intros sumsq Ds.
  apply computes_bind_total with (P := fun a => dims a = dims img).
  { destruct (computes_normalize_total PrimFloat.div (amap PrimFloat.sqrt sumsq))
      as (a' & tr & C & D).
    - apply (concat_dims_nonempty img); [now rewrite dims_amap | assumption].
    - exists a', tr. split; [assumption|]. now rewrite D, dims_amap. }
  intros mag Dm.
  apply computes_bind_total with (P := fun a => dims a = dims img).
  { eexists; eexists; split.
    - rewrite np_binop_ok
        by now rewrite !dims_amap, !blur_f32_dims, !dims_amap.
      apply computes_lift.
    - rewrite dims_zip_with
        by now rewrite !dims_amap, !blur_f32_dims, !dims_amap.
      now rewrite blur_f32_dims, !dims_amap. }
  intros var0 Dv0.
  apply computes_bind_total with (P := fun a => dims a = dims img).
  { destruct (computes_normalize_total div32
                (amap (fun x => np_maximum x 0%float) var0))
      as (a' & tr & C & D).
    - apply (concat_dims_nonempty img); [now rewrite dims_amap | assumption].
    - exists a', tr. split; [assumption|]. now rewrite D, dims_amap. }
  intros var Dv.
  apply computes_bind_total with (P := fun a => dims a = dims img).
  { unfold weighted_sum.
    destruct (String.eqb pc "cancer");
      (rewrite np_binop_ok by (rewrite !dims_amap; congruence));
      (eexists; eexists; split; [apply computes_lift|]);
      (rewrite dims_zip_with by (rewrite !dims_amap; congruence));
      now rewrite dims_amap. }
  intros fus Df.
  apply computes_bind_total with (P := fun a => dims a = dims img).
  { destruct (computes_normalize_total div32
                (GaussianBlur_f32 (amap to_f32 fus) (31, 31)%nat 0%float))
      as (a' & tr & C & D).
    - apply (concat_dims_nonempty img);
        [now rewrite GaussianBlur_f32_dims, dims_amap | assumption].
    - exists a', tr. split; [assumption|].
      now rewrite D, GaussianBlur_f32_dims, dims_amap. }
  intros hm Dh.
  apply computes_bind_total with (P := fun a => dims a = dims img).
  { assert (E : dims (cvtColor_BGR2RGB img)
                = dims (amap to_uint8_rgb (amap jet_rgb hm)))
      by (unfold cvtColor_BGR2RGB; rewrite !dims_amap; congruence).
    unfold cv2_addWeighted. rewrite E, dims_eqb_refl.
    eexists; eexists; split; [apply computes_lift|].
    rewrite dims_zip_with by exact E.
    unfold cvtColor_BGR2RGB. apply dims_amap. }
  intros ov Do.
  eexists; eexists; split; [apply computes_ret|].
  simpl. unfold cvtColor_RGB2BGR. now rewrite dims_amap.
Qed.

(** [generate_simple_heatmap], case by case. *)
Lemma generate_simple_heatmap_run (image_path output_path : path)
    (pc : string) (alpha : float) (s : State) :
  generate_simple_heatmap image_path output_path pc alpha s =
  match files (world s) image_path with
  | None => (Raise (ValueError ("Could not load image: " ++ image_path)), s)
  | Some b =>
      match imread_decode b with
      | None => (Raise (ValueError ("Could not load image: " ++ image_path)), s)
      | Some img =>
          match heatmap_pipeline img pc alpha s with
          | (Raise e, s1) => (Raise e, s1)
          | (Ok L, s1) =>
              match find_encoder output_path with
              | None =>
                  (Raise (CvError "could not find a writer for the specified extension"), s1)
              | Some enc =>
                  if writable (world s1) output_path
                  then (Ok output_path,
                        {| world := fs_write output_path (enc (overlay_bgr L)) (world s1);
                           trace := trace s1 ++ [EvWrite output_path] |})
                  else (Ok output_path, s1)
              end
          end
      end
  end.
Proof.
  unfold generate_simple_heatmap, bind at 1, cv2_imread.
  destruct (files (world s) image_path) as [b|]; [|reflexivity].
  destruct (imread_decode b) as [img|]; [|reflexivity].
  unfold bind at 1.
  destruct (heatmap_pipeline img pc alpha s) as [[L|e] s1]; [|reflexivity].
  unfold bind, cv2_imwrite, ret.
  destruct (find_encoder output_path) as [enc|]; [|reflexivity].
  now destruct (writable (world s1) output_path).
Qed.

End PipelineFacts.

(** ** The reference implementation satisfies the laws *)

Lemma map_const_in {A B} (g : A -> B) (y : B) (l : list A) :
  (forall x, In x l -> g x = y) -> map g l = repeat y (List.length l).
Proof.
  induction l as [|x l IH]; intros H; simpl; [reflexivity|].
  rewrite (H x) by now left.
  f_equal. apply IH. intros x' Hx'. apply H. now right.
Qed.

Lemma length_imap {A B} (f : nat -> A -> B) (l : list A) :
  List.length (imap f l) = List.length l.
Proof.
  unfold imap. rewrite length_map, length_combine, length_seq.
  apply Nat.min_id.
Qed.

Lemma imap_repeat {A B} (f : nat -> A -> B) (x : A) (y : B) (n : nat) :
  (forall i, f i x = y) -> imap f (repeat x n) = repeat y n.
Proof.
  intros H. unfold imap.
  rewrite (map_const_in _ y).
  - now rewrite length_combine, length_seq, repeat_length, Nat.min_id.
  - intros [i v] Hin. simpl.
    apply in_combine_r in Hin. apply repeat_spec in Hin. subst v. apply H.
Qed.

Lemma dims_filter2D {T R} (kh kw : nat) (f : array T -> R) (a : array T) :
  dims (filter2D kh kw f a) = dims a.
Proof.
  unfold dims, filter2D, imap at 1.
  rewrite map_map.
  assert (G : forall (l : array T) (n : nat),
             map (fun ix : nat * list T =>
                    List.length
                      (imap (fun j c => f (window kh kw a (fst ix) j c)) (snd ix)))
                 (combine (seq n (List.length l)) l)
             = map (@List.length T) l).
  { induction l as [|r l IH]; intros n; simpl; [reflexivity|].
    now rewrite length_imap, IH. }
  apply G.
Qed.

Lemma nth_repeat_row {T} (r : list T) (h k : nat) :
  nth k (repeat r h) [] = r \/ nth k (repeat r h) [] = [].
Proof.
  revert k; induction h as [|h IH]; intros [|k]; simpl; auto.
Qed.

Lemma at101_full {T} (c : T) (h w : nat) (i j : Z) :
  at101 c (full h w c) i j = c.
Proof.
  unfold at101, full.
  destruct (nth_repeat_row (repeat c w) h
              (reflect101 (List.length (repeat (repeat c w) h)) i)) as [E|E];
    rewrite E.
  - apply nth_repeat.
  - now destruct (reflect101 _ j).
Qed.

Lemma length_offsets (k : nat) : List.length (offsets k) = k.
Proof. unfold offsets. now rewrite length_map, length_seq. Qed.

Lemma window_full {T} (kh kw h w i j : nat) (c : T) :
  window kh kw (full h w c) i j c = full kh kw c.
Proof.
  unfold window, full.
  rewrite (map_const_in _ (repeat c kw)).
  - now rewrite length_offsets.
  - intros di _. rewrite (map_const_in _ c).
    + now rewrite length_offsets.
    + intros dj _. apply at101_full.
Qed.

(** A filter maps a uniform array to a uniform array: every window is the
    uniform window. *)
Lemma filter2D_full {T R} (kh kw : nat) (f : array T -> R) (h w : nat) (c : T) :
  filter2D kh kw f (full h w c) = full h w (f (full kh kw c)).
Proof.
  unfold filter2D. unfold full at 2 3.
  apply imap_repeat. intros i.
  apply imap_repeat. intros j.
  fold (full h w c). now rewrite window_full.
Qed.

Lemma ref_shape_laws : ShapeLaws ref_lib.
Proof.
  split; intros;
    unfold GaussianBlur_u8, Sobel_64F, blur_f32, GaussianBlur_f32, ref_lib,
      ref_GaussianBlur_u8, ref_Sobel_64F, ref_blur_f32, ref_GaussianBlur_f32;
    apply dims_filter2D.
Qed.

Lemma sobel_uniform_sum (wr wc : list Z) (z : Z) :
  (wr = [1; 2; 1]%Z /\ wc = [-1; 0; 1]%Z)
  \/ (wr = [-1; 0; 1]%Z /\ wc = [1; 2; 1]%Z) ->
  wsum2 wr wc (full 3 3 z) = 0%Z.
Proof.
  intros [[-> ->]|[-> ->]];
    cbv [wsum2 wsum full repeat map zip_with fold_left]; lia.
Qed.

(** The 31 by 31 box mean of a grey level, and of its square, is exact. *)
Lemma box_mean_gray (g : byte) :
  to_f32 (fsum (List.concat (full 31 31 (float_of_u8 g))) / float_of_Z 961)
  = float_of_u8 g.
Proof. destruct g; vm_compute; reflexivity. Qed.

Lemma box_mean_gray_sq (g : byte) :
  to_f32 (fsum (List.concat (full 31 31 (mul32 (float_of_u8 g) (float_of_u8 g))))
          / float_of_Z 961)
  = mul32 (float_of_u8 g) (float_of_u8 g).
Proof. destruct g; vm_compute; reflexivity. Qed.

Lemma ref_uniform_laws : UniformLaws ref_lib.
Proof.
  split; unfold GaussianBlur_u8, Sobel_64F, blur_f32, GaussianBlur_f32, ref_lib.
  - intros h w c. eexists. unfold ref_GaussianBlur_u8. apply filter2D_full.
  - intros h w c dx dy Hd. unfold ref_Sobel_64F.
    rewrite filter2D_full. f_equal.
    rewrite amap_full, sobel_uniform_sum; [reflexivity|].
    destruct dx as [|[|dx]], dy as [|[|dy]]; try lia; simpl; auto.
  - intros h w g. unfold ref_blur_f32.
    rewrite filter2D_full. f_equal. apply box_mean_gray.
  - intros h w g. unfold ref_blur_f32.
    rewrite filter2D_full. f_equal. apply box_mean_gray_sq.
  - intros h w. unfold ref_GaussianBlur_f32.
    rewrite filter2D_full. apply (f_equal (full h w)).
    vm_compute. reflexivity.
Qed.

Lemma float_of_u8_times_zero (b : byte) : (float_of_u8 b * 0)%float = 0%float.
Proof. destruct b; vm_compute; reflexivity. Qed.

Lemma ref_blend_first (a : byte) :
  saturate_u8 (round_half_even (float_of_u8 a * 1 + 0 + 0)%float) = a.
Proof. destruct a; vm_compute; reflexivity. Qed.

Lemma ref_blend_second (b : byte) :
  saturate_u8 (round_half_even (0 + float_of_u8 b * 1 + 0)%float) = b.
Proof. destruct b; vm_compute; reflexivity. Qed.

Lemma ref_blend_laws : BlendLaws ref_lib.
Proof.
  split; intros a b; unfold addWeighted_u8, ref_lib, ref_addWeighted_u8;
    rewrite float_of_u8_times_zero.
  - apply ref_blend_first.
  - apply ref_blend_second.
Qed.

Lemma valid_image_nonempty (img : array pixel) :
  valid_image img = true -> List.concat img <> [].
Proof.
  destruct img as [|r rs]; simpl; [discriminate|].
  intros H. apply andb_prop in H as [Hr _].
  destruct r; [discriminate|]. simpl. discriminate.
Qed.

Lemma ref_decode_laws : DecodeLaws ref_lib.
Proof.
  split. intros b img. unfold imread_decode, ref_lib, raw_decode.
  destruct (raw_rows b []) as [img'|]; [|discriminate].
  destruct (valid_image img') eqn:V; [|discriminate].
  intros H. injection H as <-. now apply valid_image_nonempty.
Qed.

(** ** The claims *)

Lemma dims_height_width {A B} (a : array A) (b : array B) :
  dims a = dims b -> height a = height b /\ width a = width b.
Proof.
  unfold height, width, dims. intros H. split.
  - rewrite <- (length_map (@List.length A) a), H. apply length_map.
  - destruct a as [|r a], b as [|r' b]; try discriminate; [reflexivity|].
    simpl in *. now injection H.
Qed.

Lemma files_fs_write_same (p : path) (b : bytes) (w : World) :
  files (fs_write p b w) p = Some b.
Proof. unfold fs_write. simpl. now rewrite String.eqb_refl. Qed.

Lemma files_fs_write_other (p q : path) (b : bytes) (w : World) :
  q <> p -> files (fs_write p b w) q = files w q.
Proof.
  intros H. unfold fs_write. simpl.
  destruct (String.eqb q p) eqn:E; [|reflexivity].
  apply String.eqb_eq in E. contradiction.
Qed.



(** C2: for every image that decodes, every label and every alpha, the overlay
    that [generate_simple_heatmap] computes has the height, the width and the
    row lengths of the input image, and the file it writes is the encoding of
    that overlay. *)
Theorem C2_overlay_has_input_dimensions {lib : Cv2}
    (shape : ShapeLaws lib) (decode : DecodeLaws lib)
    (image_path output_path : path) (pc : string) (alpha : float)
    (s : State) (b : bytes) (img : array pixel) :
  files (world s) image_path = Some b ->
  imread_decode b = Some img ->
  exists L tr,
    heatmap_pipeline img pc alpha s = (Ok L, after s tr) /\
    height (overlay_bgr L) = height img /\
    width (overlay_bgr L) = width img /\
    dims (overlay_bgr L) = dims img /\
    forall enc,
      find_encoder output_path = Some enc ->
      writable (world s) output_path = true ->
      exists s',
        generate_simple_heatmap image_path output_path pc alpha s
        = (Ok output_path, s') /\
        files (world s') output_path = Some (enc (overlay_bgr L)).
Proof.
  intros Hf Hd.
  destruct (pipeline_total img pc alpha (decode_nonempty b img Hd))
    as (L & tr & [_ Hrun] & HD).
  exists L, tr. destruct (dims_height_width _ _ HD) as [Hh Hw].
  repeat split; try assumption; [apply Hrun|].
  intros enc He Hwr.
  rewrite generate_simple_heatmap_run, Hf, Hd, Hrun, He.
  simpl. rewrite Hwr. eexists. split; [reflexivity|].
  simpl. apply files_fs_write_same.
Qed.

Lemma C2_overlay_has_input_dimensions_witness :
  exists L tr,
    heatmap_pipeline (lib := ref_lib) xray_img cancer 0.5 sample_state
    = (Ok L, after sample_state tr) /\
    height (overlay_bgr L) = height xray_img /\
    width (overlay_bgr L) = width xray_img /\
    dims (overlay_bgr L) = dims xray_img /\
    forall enc,
      find_encoder (Cv2 := ref_lib) heatmap_path = Some enc ->
      writable (world sample_state) heatmap_path = true ->
      exists s',
        generate_simple_heatmap (lib := ref_lib) xray_path heatmap_path
          cancer 0.5 sample_state
        = (Ok heatmap_path, s') /\
        files (world s') heatmap_path = Some (enc (overlay_bgr L)).
Proof.
  apply (C2_overlay_has_input_dimensions ref_shape_laws ref_decode_laws
           xray_path heatmap_path cancer 0.5 sample_state
           (raw_encode xray_img) xray_img);
    vm_compute; reflexivity.
Defined.

Lemma var_uniform_zero (g : byte) :
  np_maximum (sub32 (mul32 (float_of_u8 g) (float_of_u8 g))
                    (mul32 (float_of_u8 g) (float_of_u8 g))) 0%float = 0%float.
Proof. destruct g; vm_compute; reflexivity. Qed.

Lemma normalize_zero (div : float -> float -> float) (h w : nat) (s : State) :
  (0 < h)%nat -> (0 < w)%nat ->
  normalize div (full h w 0%float) s = (Ok (full h w 0%float), s).
Proof.
  intros Hh Hw. rewrite normalize_run, np_max_full by assumption. reflexivity.
Qed.

(** Lines 29 to 81 on a uniform image: every field is zero, the state is left
    as it was, and the overlay is uniform. *)
Lemma pipeline_uniform {lib : Cv2} `{!UniformLaws lib} (h w : nat) (px : pixel)
    (pc : string) (alpha : float) (s : State) :
  (0 < h)%nat -> (0 < w)%nat ->
  exists L,
    heatmap_pipeline (full h w px) pc alpha s = (Ok L, s) /\
    magnitude L = full h w 0%float /\
    local_var L = full h w 0%float /\
    heatmap L = full h w 0%float /\
    overlay L
    = full h w (addWeighted_px (1 - alpha) alpha 0
                  (swap_rb px) (to_uint8_rgb (jet_rgb 0))) /\
    overlay_bgr L
    = full h w (swap_rb (addWeighted_px (1 - alpha) alpha 0
                           (swap_rb px) (to_uint8_rgb (jet_rgb 0)))).
Proof.
  intros Hh Hw. unfold heatmap_pipeline. cbv zeta.
  unfold cvtColor_BGR2RGB, cvtColor_BGR2GRAY, cvtColor_RGB2BGR.
  rewrite !amap_full.
  destruct (GaussianBlur_u8_uniform h w (gray_of_bgr px)) as [c' Hc]. rewrite Hc.
  rewrite !Sobel_64F_uniform by reflexivity.
  rewrite blur_f32_uniform, blur_f32_uniform_sq.
  rewrite !amap_full.
  unfold bind at 1, lift at 1. rewrite np_binop_full. rewrite amap_full.
  replace (sqrt (0 * 0 + 0 * 0))%float with 0%float by reflexivity.
  unfold bind at 1. rewrite normalize_zero by assumption.
  unfold bind at 1, lift at 1. rewrite np_binop_full, amap_full, var_uniform_zero.
  unfold bind at 1. rewrite normalize_zero by assumption.
  assert (F : (if String.eqb pc "cancer"
               then weighted_sum 0.4 (full h w 0%float) 0.6 (full h w 0%float)
               else weighted_sum 0.6 (full h w 0%float) 0.4 (full h w 0%float))
              = Ok (full h w 0%float)).
  { unfold weighted_sum. rewrite !amap_full, !np_binop_full.
    now destruct (String.eqb pc "cancer"). }
  rewrite F. unfold bind at 1, lift at 1.
  rewrite amap_full.
  replace (to_f32 0) with 0%float by reflexivity.
  rewrite GaussianBlur_f32_zero.
  unfold bind at 1. rewrite normalize_zero by assumption.
  rewrite !amap_full.
  unfold bind, lift, ret, cv2_addWeighted.
  rewrite !dims_full, dims_eqb_refl, zip_with_full.
  eexists. split; [reflexivity|]. simpl.
  rewrite amap_full. repeat split.
Qed.

(** C3: on a uniform image the magnitude and the variance field are zero at
    every pixel, the run records no division, and the file written is the
    encoding of the image blended, channel by channel, with the colour the
    colormap gives to the value zero. *)
Theorem C3_uniform_image {lib : Cv2} (uniform : UniformLaws lib)
    (h w : nat) (px : pixel) (pc : string) (alpha : float) (s : State)
    (image_path output_path : path) (b : bytes)
    (enc : array pixel -> bytes) :
  (0 < h)%nat -> (0 < w)%nat ->
  files (world s) image_path = Some b ->
  imread_decode b = Some (full h w px) ->
  find_encoder output_path = Some enc ->
  writable (world s) output_path = true ->
  let zero_colour := to_uint8_rgb (jet_rgb 0) in
  let blended := addWeighted_px (1 - alpha) alpha 0 (swap_rb px) zero_colour in
  exists L s',
    heatmap_pipeline (full h w px) pc alpha s = (Ok L, s) /\
    magnitude L = full h w 0%float /\
    local_var L = full h w 0%float /\
    overlay L = full h w blended /\
    generate_simple_heatmap image_path output_path pc alpha s
    = (Ok output_path, s') /\
    divisions (trace s') = divisions (trace s) /\
    files (world s') output_path = Some (enc (full h w (swap_rb blended))).
Proof.
  intros Hh Hw Hf Hd He Hwr zero_colour blended.
  destruct (pipeline_uniform h w px pc alpha s Hh Hw)
    as (L & Hrun & Hm & Hv & _ & Ho & Hb).
  exists L. eexists.
  split; [exact Hrun|]. split; [exact Hm|]. split; [exact Hv|].
  split; [exact Ho|]. split; [|split].
  - rewrite generate_simple_heatmap_run, Hf, Hd, Hrun, He, Hwr. reflexivity.
  - simpl. unfold divisions. rewrite flat_map_app. simpl. apply app_nil_r.
  - simpl. rewrite Hb. apply files_fs_write_same.
Qed.

Lemma C3_uniform_image_witness :
  let zero_colour := to_uint8_rgb (jet_rgb (lib := ref_lib) 0) in
  let blended :=
    addWeighted_px (lib := ref_lib) (1 - 0.5) 0.5 0
      (swap_rb (x40, x80, xc0)) zero_colour in
  exists L s',
    heatmap_pipeline (lib := ref_lib) (full 2 2 (x40, x80, xc0)) cancer 0.5
      sample_state = (Ok L, sample_state) /\
    magnitude L = full 2 2 0%float /\
    local_var L = full 2 2 0%float /\
    overlay L = full 2 2 blended /\
    generate_simple_heatmap (lib := ref_lib) blank_path heatmap_path cancer 0.5
      sample_state = (Ok heatmap_path, s') /\
    divisions (trace s') = divisions (trace sample_state) /\
    files (world s') heatmap_path = Some (raw_encode (full 2 2 (swap_rb blended))).
Proof.
  apply (C3_uniform_image ref_uniform_laws 2 2 (x40, x80, xc0) cancer 0.5
           sample_state blank_path heatmap_path (raw_encode blank_img)
           raw_encode);
    solve [ lia | vm_compute; reflexivity ].
Defined.

Lemma divisions_positive (tr : list event) :
  Forall positive_division tr ->
  Forall (fun d => (0 <? d)%float = true) (divisions tr) /\ writes tr = [].
Proof.
  induction 1 as [|ev tr Hev _ [IHd IHw]]; simpl; [split; constructor|].
  destruct ev as [d|p]; simpl in *; [|contradiction].
  split; [constructor|]; assumption.
Qed.

Lemma divisions_app (t1 t2 : list event) :
  divisions (t1 ++ t2) = divisions t1 ++ divisions t2.
Proof. unfold divisions. apply flat_map_app. Qed.

Lemma writes_app (t1 t2 : list event) :
  writes (t1 ++ t2) = writes t1 ++ writes t2.
Proof. unfold writes. apply flat_map_app. Qed.

(** The events of a call of [generate_simple_heatmap]: divisions by positive
    numbers, then at most the one write, to [output_path]. *)
Lemma generate_simple_heatmap_trace {lib : Cv2} (image_path output_path : path)
    (pc : string) (alpha : float) (s : State) :
  exists tr,
    trace (snd (generate_simple_heatmap image_path output_path pc alpha s))
    = trace s ++ tr /\
    Forall (fun d => (0 <? d)%float = true) (divisions tr) /\
    (writes tr = [] \/ writes tr = [output_path]).
Proof.
  rewrite generate_simple_heatmap_run.
  destruct (files (world s) image_path) as [b|];
    [|exists []; simpl; rewrite app_nil_r; auto].
  destruct (imread_decode b) as [img|];
    [|exists []; simpl; rewrite app_nil_r; auto].
  destruct (pipeline_computes img pc alpha) as (r & tr & F & Hrun).
  rewrite Hrun. apply divisions_positive in F as [Fd Fw].
  destruct r as [L|e]; [|exists tr; simpl; auto].
  destruct (find_encoder output_path) as [enc|]; [|exists tr; simpl; auto].
  simpl. destruct (writable (world s) output_path).
  - exists (tr ++ [EvWrite output_path]). simpl.
    rewrite app_assoc, divisions_app, writes_app, Fw. simpl.
    rewrite app_nil_r. auto.
  - exists tr. simpl. auto.
Qed.

(** C4: every division that [generate_simple_heatmap] performs is by a
    strictly positive number; a normalisation step divides by the maximum of
    its field exactly when that maximum is strictly positive, and leaves the
    field as it is, with no division, when the maximum is zero. *)
Theorem C4_division_only_by_positive_maximum {lib : Cv2}
    (image_path output_path : path) (pc : string) (alpha : float) (s : State) :
  (exists tr,
     trace (snd (generate_simple_heatmap image_path output_path pc alpha s))
     = trace s ++ tr /\
     Forall (fun d => (0 <? d)%float = true) (divisions tr)) /\
  (forall div a m s0,
     np_max a = Ok m ->
     normalize div a s0
     = if (0 <? m)%float
       then (Ok (amap (fun x => div x m) a), after s0 [EvDivide m])
       else (Ok a, s0)) /\
  (forall div a s0, np_max a = Ok 0%float -> normalize div a s0 = (Ok a, s0)).
Proof.
  split; [|split].
  - destruct (generate_simple_heatmap_trace image_path output_path pc alpha s)
      as (tr & Ht & Hd & _).
    now exists tr.
  - intros div a m s0 Hm. rewrite normalize_run, Hm. reflexivity.
  - intros div a s0 Hm. rewrite normalize_run, Hm. reflexivity.
Qed.

Lemma C4_division_only_by_positive_maximum_witness :
  normalize div32 (full 2 2 0%float) sample_state
  = (Ok (full 2 2 0%float), sample_state).
Proof.
  apply (proj2 (proj2 (C4_division_only_by_positive_maximum (lib := ref_lib)
                         xray_path heatmap_path cancer 0.5 sample_state))).
  vm_compute. reflexivity.
Defined.

Lemma zip_with_left {A B} (f : A -> B -> A) (l1 : list A) (l2 : list B) :
  (forall x y, f x y = x) -> List.length l1 = List.length l2 ->
  zip_with f l1 l2 = l1.
Proof.
  intros Hf. revert l2; induction l1 as [|x l1 IH]; intros [|y l2]; simpl;
    try discriminate; [reflexivity|].
  intros H. injection H as H. now rewrite Hf, IH.
Qed.

Lemma zip_with_right {A B} (f : A -> B -> B) (l1 : list A) (l2 : list B) :
  (forall x y, f x y = y) -> List.length l1 = List.length l2 ->
  zip_with f l1 l2 = l2.
Proof.
  intros Hf. revert l2; induction l1 as [|x l1 IH]; intros [|y l2]; simpl;
    try discriminate; [reflexivity|].
  intros H. injection H as H. now rewrite Hf, IH.
Qed.

Lemma zip_with2_left {A B} (f : A -> B -> A) (a : array A) (b : array B) :
  (forall x y, f x y = x) -> dims a = dims b ->
  zip_with (zip_with f) a b = a.
Proof.
  intros Hf. revert b; induction a as [|r a IH]; intros [|r' b]; simpl;
    try discriminate; [reflexivity|].
  intros H. injection H as Hr Ha.
  now rewrite zip_with_left, IH.
Qed.

Lemma zip_with2_right {A B} (f : A -> B -> B) (a : array A) (b : array B) :
  (forall x y, f x y = y) -> dims a = dims b ->
  zip_with (zip_with f) a b = b.
Proof.
  intros Hf. revert b; induction a as [|r a IH]; intros [|r' b]; simpl;
    try discriminate; [reflexivity|].
  intros H. injection H as Hr Ha.
  now rewrite zip_with_right, IH.
Qed.

Lemma swap_rb_involutive (p : pixel) : swap_rb (swap_rb p) = p.
Proof. now destruct p as [[c0 c1] c2]. Qed.

Lemma amap_swap_rb_involutive (img : array pixel) :
  amap swap_rb (amap swap_rb img) = img.
Proof.
  unfold amap. rewrite map_map. rewrite <- (map_id img) at 2.
  apply map_ext. intros row. rewrite map_map. rewrite <- (map_id row) at 2.
  apply map_ext. apply swap_rb_involutive.
Qed.

(** [cv2.addWeighted] with weights 1 and 0, and with weights 0 and 1. *)
Lemma cv2_addWeighted_extremes {lib : Cv2} `{!BlendLaws lib}
    (src1 src2 : array pixel) :
  (forall r, cv2_addWeighted src1 (1 - 0)%float src2 0%float 0%float = Ok r ->
        r = src1) /\
  (forall r, cv2_addWeighted src1 (1 - 1)%float src2 1%float 0%float = Ok r ->
        r = src2).
Proof.
  unfold cv2_addWeighted.
  destruct (dims_eqb (dims src1) (dims src2)) eqn:E;
    [|split; intros r H; discriminate].
  apply dims_eqb_eq in E.
  split; intros r H; injection H as <-.
  - change (1 - 0)%float with 1%float. apply zip_with2_left; [|assumption].
    intros [[p0 p1] p2] [[q0 q1] q2]. unfold addWeighted_px.
    now rewrite !addWeighted_u8_first.
  - change (1 - 1)%float with 0%float. apply zip_with2_right; [|assumption].
    intros [[p0 p1] p2] [[q0 q1] q2]. unfold addWeighted_px.
    now rewrite !addWeighted_u8_second.
Qed.

(** C5: for an image that decodes, with [alpha = 0] the file written is the
    encoding of the original image, and with [alpha = 1] it is the encoding of
    the colourised saliency field alone. *)
Theorem C5_alpha_zero_and_one {lib : Cv2}
    (shape : ShapeLaws lib) (decode : DecodeLaws lib) (blend : BlendLaws lib)
    (image_path output_path : path) (pc : string) (s : State)
    (b : bytes) (img : array pixel) (enc : array pixel -> bytes) :
  files (world s) image_path = Some b ->
  imread_decode b = Some img ->
  find_encoder output_path = Some enc ->
  writable (world s) output_path = true ->
  (exists s0,
     generate_simple_heatmap image_path output_path pc 0 s = (Ok output_path, s0) /\
     files (world s0) output_path = Some (enc img)) /\
  (exists s1 L t,
     generate_simple_heatmap image_path output_path pc 1 s = (Ok output_path, s1) /\
     heatmap_pipeline img pc 1 s = (Ok L, t) /\
     heatmap_colored L = amap to_uint8_rgb (amap jet_rgb (heatmap L)) /\
     files (world s1) output_path
     = Some (enc (cvtColor_RGB2BGR (heatmap_colored L)))).
Proof.
  intros Hf Hd He Hwr. pose proof (decode_nonempty b img Hd) as Hne. split.
  - destruct (pipeline_total img pc 0 Hne) as (L & tr & [_ Hrun] & _).
    pose proof (Hrun s) as Hs.
    apply pipeline_inv in Hs
      as (q & v & t1 & t2 & Hrgb & _ & _ & _ & _ & _ & _ & _ & _ & _ & _ & _
          & _ & _ & Ho & Hb).
    apply (proj1 (cv2_addWeighted_extremes _ _)) in Ho.
    eexists. split.
    + rewrite generate_simple_heatmap_run, Hf, Hd, Hrun, He. simpl.
      rewrite Hwr. reflexivity.
    + cbn [world]. rewrite files_fs_write_same, Hb, Ho, Hrgb.
      unfold cvtColor_RGB2BGR, cvtColor_BGR2RGB.
      now rewrite amap_swap_rb_involutive.
  - destruct (pipeline_total img pc 1 Hne) as (L & tr & [_ Hrun] & _).
    pose proof (Hrun s) as Hs.
    apply pipeline_inv in Hs
      as (q & v & t1 & t2 & _ & _ & _ & _ & _ & _ & _ & _ & _ & _ & _ & _
          & _ & Hc & Ho & Hb).
    apply (proj2 (cv2_addWeighted_extremes _ _)) in Ho.
    eexists. exists L. eexists. split; [|split; [apply Hrun|split; [exact Hc|]]].
    + rewrite generate_simple_heatmap_run, Hf, Hd, Hrun, He. simpl.
      rewrite Hwr. reflexivity.
    + cbn [world]. now rewrite files_fs_write_same, Hb, Ho.
Qed.

Lemma C5_alpha_zero_and_one_witness :
  (exists s0,
     generate_simple_heatmap (lib := ref_lib) xray_path heatmap_path cancer 0
       sample_state = (Ok heatmap_path, s0) /\
     files (world s0) heatmap_path = Some (raw_encode xray_img)) /\
  (exists s1 L t,
     generate_simple_heatmap (lib := ref_lib) xray_path heatmap_path cancer 1
       sample_state = (Ok heatmap_path, s1) /\
     heatmap_pipeline (lib := ref_lib) xray_img cancer 1 sample_state = (Ok L, t) /\
     heatmap_colored L
     = amap to_uint8_rgb (amap (jet_rgb (lib := ref_lib)) (heatmap L)) /\
     files (world s1) heatmap_path
     = Some (raw_encode (cvtColor_RGB2BGR (heatmap_colored L)))).
Proof.
  apply (C5_alpha_zero_and_one ref_shape_laws ref_decode_laws ref_blend_laws
           xray_path heatmap_path cancer sample_state
           (raw_encode xray_img) xray_img raw_encode);
    vm_compute; reflexivity.
Defined.

(** C6: two calls with the same arguments, on file systems that hold the same
    bytes at the image path, end the same way; when both can write the output
    path, the two output files hold the same bytes. *)
Theorem C6_deterministic {lib : Cv2} (image_path output_path : path)
    (pc : string) (alpha : float) (s1 s2 : State) :
  files (world s1) image_path = files (world s2) image_path ->
  fst (generate_simple_heatmap image_path output_path pc alpha s1)
  = fst (generate_simple_heatmap image_path output_path pc alpha s2) /\
  (writable (world s1) output_path = true ->
   writable (world s2) output_path = true ->
   fst (generate_simple_heatmap image_path output_path pc alpha s1)
   = Ok output_path ->
   exists out,
     files (world (snd (generate_simple_heatmap image_path output_path pc alpha s1)))
       output_path = Some out /\
     files (world (snd (generate_simple_heatmap image_path output_path pc alpha s2)))
       output_path = Some out).
Proof.
  intros Hf. rewrite !generate_simple_heatmap_run, <- Hf.
  destruct (files (world s1) image_path) as [b|];
    [|split; [reflexivity | intros _ _ H; discriminate]].
  destruct (imread_decode b) as [img|];
    [|split; [reflexivity | intros _ _ H; discriminate]].
  destruct (pipeline_computes img pc alpha) as (r & tr & _ & Hrun).
  rewrite (Hrun s1), (Hrun s2).
  destruct r as [L|e]; [|split; [reflexivity | intros _ _ H; discriminate]].
  destruct (find_encoder output_path) as [enc|];
    [|split; [reflexivity | intros _ _ H; discriminate]].
  cbn [after world].
  split.
  - now destruct (writable (world s1) output_path),
                 (writable (world s2) output_path).
  - intros -> -> _. exists (enc (overlay_bgr L)).
    cbn [snd world]. now rewrite !files_fs_write_same.
Qed.

Lemma C6_deterministic_witness :
  fst (generate_simple_heatmap (lib := ref_lib) xray_path heatmap_path cancer 0.5
         sample_state)
  = fst (generate_simple_heatmap (lib := ref_lib) xray_path heatmap_path cancer 0.5
           other_state) /\
  (writable (world sample_state) heatmap_path = true ->
   writable (world other_state) heatmap_path = true ->
   fst (generate_simple_heatmap (lib := ref_lib) xray_path heatmap_path cancer 0.5
          sample_state)
   = Ok heatmap_path ->
   exists out,
     files (world (snd (generate_simple_heatmap (lib := ref_lib) xray_path
                          heatmap_path cancer 0.5 sample_state)))
       heatmap_path = Some out /\
     files (world (snd (generate_simple_heatmap (lib := ref_lib) xray_path
                          heatmap_path cancer 0.5 other_state)))
       heatmap_path = Some out).
Proof.
  apply (C6_deterministic (lib := ref_lib) xray_path heatmap_path cancer 0.5
           sample_state other_state).
  vm_compute. reflexivity.
Defined.

Lemma unreadable_cases {lib : Cv2} (image_path : path) (s : State) :
  unreadable image_path s <->
  files (world s) image_path = None \/
  exists b, files (world s) image_path = Some b /\ imread_decode b = None.
Proof.
  unfold unreadable, cv2_imread.
  destruct (files (world s) image_path) as [b|]; simpl.
  - split.
    + intros H. right. exists b. split; [reflexivity|]. congruence.
    + intros [H|(b' & Hb & Hd)]; [discriminate|]. congruence.
  - split; auto.
Qed.

(** C7, as the code behaves: with filters that keep the shape and a decoder
    that returns images with a pixel, [generate_simple_heatmap] raises exactly
    when the source path cannot be read and decoded or [cv2.imwrite] finds no
    encoder for the output path; when the source cannot be read it raises the
    [ValueError] of line 27 and leaves the state as it was. *)
Theorem C7_raises_iff_unreadable_or_no_encoder {lib : Cv2}
    (shape : ShapeLaws lib) (decode : DecodeLaws lib)
    (image_path output_path : path) (pc : string) (alpha : float) (s : State) :
  (raises (generate_simple_heatmap image_path output_path pc alpha s) <->
   unreadable image_path s \/ find_encoder output_path = None) /\
  (unreadable image_path s ->
   generate_simple_heatmap image_path output_path pc alpha s
   = (Raise (ValueError ("Could not load image: " ++ image_path)), s)).
Proof.
  unfold raises. rewrite unreadable_cases, generate_simple_heatmap_run.
  destruct (files (world s) image_path) as [b|].
  2:{ split; [|reflexivity]. split; [auto | intros _; eexists; reflexivity]. }
  destruct (imread_decode b) as [img|] eqn:Hd.
  2:{ split; [|reflexivity].
      split; [intros _; left; right; now exists b
             | intros _; eexists; reflexivity]. }
  destruct (pipeline_total img pc alpha (decode_nonempty b img Hd))
    as (L & tr & [_ Hrun] & _).
  rewrite Hrun.
  assert (R : ~ (Some b = None \/
                 exists b', Some b = Some b' /\ imread_decode b' = None)).
  { intros [H|(b' & Hb & Hn)]; [discriminate|]. injection Hb as <-. congruence. }
  split; [|intros H; contradiction].
  destruct (find_encoder output_path) as [enc|].
  - split.
    + intros [e H]. now destruct (writable (world (after s tr)) output_path).
    + intros [H|H]; [contradiction | discriminate].
  - split; [auto | intros _; eexists; reflexivity].
Qed.

Lemma C7_raises_iff_unreadable_or_no_encoder_witness :
  (raises (generate_simple_heatmap (lib := ref_lib) notes_path heatmap_path
             cancer 0.5 sample_state) <->
   unreadable (lib := ref_lib) notes_path sample_state
   \/ find_encoder (Cv2 := ref_lib) heatmap_path = None) /\
  (unreadable (lib := ref_lib) notes_path sample_state ->
   generate_simple_heatmap (lib := ref_lib) notes_path heatmap_path cancer 0.5
     sample_state
   = (Raise (ValueError ("Could not load image: " ++ notes_path)), sample_state)).
Proof.
  exact (C7_raises_iff_unreadable_or_no_encoder ref_shape_laws ref_decode_laws
           notes_path heatmap_path cancer 0.5 sample_state).
Defined.

(** C7 as stated fails: the image [xray.png] decodes, yet the call raises,
    because the output path has no extension that [cv2.imwrite] knows. *)
Lemma C7_counterexample :
  ~ (raises (generate_simple_heatmap (lib := ref_lib) xray_path bare_path
               cancer 0.5 sample_state) <->
     unreadable (lib := ref_lib) xray_path sample_state).
Proof.
  intros [H _].
  assert (R : raises (generate_simple_heatmap (lib := ref_lib) xray_path
                        bare_path cancer 0.5 sample_state)).
  { eexists. vm_compute. reflexivity. }
  apply H in R. unfold unreadable in R. vm_compute in R. discriminate.
Qed.

(** C8, at the failing input: the image decodes and the output path has a
    known extension, but its directory does not exist, so [cv2.imwrite]
    returns [False] and writes nothing; the call still returns the output
    path, and no file is there. *)
Theorem C8_write_failure_not_surfaced :
  find_encoder (Cv2 := ref_lib) missing_dir_path = Some raw_encode /\
  writable (world sample_state) missing_dir_path = false /\
  fst (generate_simple_heatmap (lib := ref_lib) xray_path missing_dir_path
         cancer 0.5 sample_state) = Ok missing_dir_path /\
  files (world (snd (generate_simple_heatmap (lib := ref_lib) xray_path
                       missing_dir_path cancer 0.5 sample_state)))
    missing_dir_path = None.
Proof.
  split; [|split; [|split]]; vm_compute; reflexivity.
Qed.

(** C9, at the failing input: a call that returns normally and has written no
    file at all. *)
Theorem C9_successful_call_writes_no_file :
  fst (generate_simple_heatmap (lib := ref_lib) blank_path missing_dir_path
         normal 0.5 sample_state) = Ok missing_dir_path /\
  writes (trace (snd (generate_simple_heatmap (lib := ref_lib) blank_path
                        missing_dir_path normal 0.5 sample_state))) = [] /\
  world (snd (generate_simple_heatmap (lib := ref_lib) blank_path
                missing_dir_path normal 0.5 sample_state))
  = sample_world.
Proof.
  split; [|split]; vm_compute; reflexivity.
Qed.

(** C10: [generate_gradcam_heatmap] does not read [target_class]: two calls
    that differ only in it are the same computation. *)
Theorem C10_target_class_ignored {lib : Cv2}
    (model_path image_path output_path : path) (t1 t2 : option Z) (s : State) :
  generate_gradcam_heatmap model_path image_path output_path t1 s
  = generate_gradcam_heatmap model_path image_path output_path t2 s.
Proof. reflexivity. Qed.

(** ** Further properties of utils/gradcam.py *)

(** X1: a call of [generate_simple_heatmap] changes no file other than the
    one at [output_path], changes no path's writability, and writes at most
    once, to [output_path]. *)
Theorem generate_simple_heatmap_frame {lib : Cv2} (image_path output_path : path)
    (pc : string) (alpha : float) (s : State) (q : path) :
  q <> output_path ->
  files (world (snd (generate_simple_heatmap image_path output_path pc alpha s))) q
  = files (world s) q /\
  writable (world (snd (generate_simple_heatmap image_path output_path pc alpha s))) q
  = writable (world s) q /\
  exists tr,
    trace (snd (generate_simple_heatmap image_path output_path pc alpha s))
    = trace s ++ tr /\
    (writes tr = [] \/ writes tr = [output_path]).
Proof.
  intros Hq. split; [|split].
  - rewrite generate_simple_heatmap_run.
    destruct (files (world s) image_path) as [b|]; [|reflexivity].
    destruct (imread_decode b) as [img|]; [|reflexivity].
    destruct (pipeline_computes img pc alpha) as (r & tr & _ & Hrun).
    rewrite Hrun. destruct r as [L|e]; [|reflexivity].
    destruct (find_encoder output_path) as [enc|]; [|reflexivity].
    cbn [after world].
    destruct (writable (world s) output_path); [|reflexivity].
    cbn [snd world]. now apply files_fs_write_other.
  - rewrite generate_simple_heatmap_run.
    destruct (files (world s) image_path) as [b|]; [|reflexivity].
    destruct (imread_decode b) as [img|]; [|reflexivity].
    destruct (pipeline_computes img pc alpha) as (r & tr & _ & Hrun).
    rewrite Hrun. destruct r as [L|e]; [|reflexivity].
    destruct (find_encoder output_path) as [enc|]; [|reflexivity].
    cbn [after world].
    now destruct (writable (world s) output_path).
  - destruct (generate_simple_heatmap_trace image_path output_path pc alpha s)
      as (tr & Ht & _ & Hw).
    now exists tr.
Qed.

Lemma generate_simple_heatmap_frame_witness :
  files (world (snd (generate_simple_heatmap (lib := ref_lib) xray_path
                       heatmap_path cancer 0.5 sample_state))) blank_path
  = files (world sample_state) blank_path /\
  writable (world (snd (generate_simple_heatmap (lib := ref_lib) xray_path
                          heatmap_path cancer 0.5 sample_state))) blank_path
  = writable (world sample_state) blank_path /\
  exists tr,
    trace (snd (generate_simple_heatmap (lib := ref_lib) xray_path heatmap_path
                  cancer 0.5 sample_state))
    = trace sample_state ++ tr /\
    (writes tr = [] \/ writes tr = [heatmap_path]).
Proof.
  apply (generate_simple_heatmap_frame (lib := ref_lib) xray_path heatmap_path
           cancer 0.5 sample_state blank_path).
  vm_compute. discriminate.
Defined.

(** X2: when [generate_simple_heatmap] raises, it has written nothing: the
    file system is as it was before the call. *)
Theorem generate_simple_heatmap_raise_writes_nothing {lib : Cv2}
    (image_path output_path : path) (pc : string) (alpha : float) (s : State) :
  raises (generate_simple_heatmap image_path output_path pc alpha s) ->
  world (snd (generate_simple_heatmap image_path output_path pc alpha s)) = world s.
Proof.
  unfold raises. rewrite generate_simple_heatmap_run.
  destruct (files (world s) image_path) as [b|]; [|reflexivity].
  destruct (imread_decode b) as [img|]; [|reflexivity].
  destruct (pipeline_computes img pc alpha) as (r & tr & _ & Hrun).
  rewrite Hrun. destruct r as [L|e]; [|reflexivity].
  destruct (find_encoder output_path) as [enc|]; [|reflexivity].
  cbn [after world].
  destruct (writable (world s) output_path); [|reflexivity].
  intros [e H]. discriminate.
Qed.

Lemma generate_simple_heatmap_raise_writes_nothing_witness :
  world (snd (generate_simple_heatmap (lib := ref_lib) xray_path bare_path
                cancer 0.5 sample_state))
  = world sample_state.
Proof.
  apply (generate_simple_heatmap_raise_writes_nothing (lib := ref_lib)
           xray_path bare_path cancer 0.5 sample_state).
  eexists. vm_compute. reflexivity.
Defined.

(** X3: for an image that decodes and an output path with a known extension
    that cannot be opened for writing, the call returns [output_path] all the
    same and leaves the file system as it was. *)
Theorem generate_simple_heatmap_unwritable {lib : Cv2}
    (shape : ShapeLaws lib) (decode : DecodeLaws lib)
    (image_path output_path : path) (pc : string) (alpha : float) (s : State)
    (b : bytes) (img : array pixel) (enc : array pixel -> bytes) :
  files (world s) image_path = Some b ->
  imread_decode b = Some img ->
  find_encoder output_path = Some enc ->
  writable (world s) output_path = false ->
  fst (generate_simple_heatmap image_path output_path pc alpha s) = Ok output_path /\
  world (snd (generate_simple_heatmap image_path output_path pc alpha s)) = world s.
Proof.
  intros Hf Hd He Hw.
  destruct (pipeline_total img pc alpha (decode_nonempty b img Hd))
    as (L & tr & [_ Hrun] & _).
  rewrite generate_simple_heatmap_run, Hf, Hd, Hrun, He.
  cbn [after world]. rewrite Hw. now split.
Qed.

Lemma generate_simple_heatmap_unwritable_witness :
  fst (generate_simple_heatmap (lib := ref_lib) xray_path missing_dir_path
         cancer 0.5 sample_state) = Ok missing_dir_path /\
  world (snd (generate_simple_heatmap (lib := ref_lib) xray_path
                missing_dir_path cancer 0.5 sample_state))
  = world sample_state.
Proof.
  apply (generate_simple_heatmap_unwritable ref_shape_laws ref_decode_laws
           xray_path missing_dir_path cancer 0.5 sample_state
           (raw_encode xray_img) xray_img raw_encode);
    vm_compute; reflexivity.
Defined.

(** X4: with a classifier of two classes, [generate_gradcam_heatmap] uses the
    weights of "cancer" when the cancer probability is NaN or the normal one
    is not above it (a tie goes to "cancer"), and the weights of "normal"
    otherwise. *)
Theorem generate_gradcam_heatmap_two_classes {lib : Cv2}
    (model_path image_path output_path : path) (target_class : option Z)
    (s : State) (p0 p1 : float) :
  yolo_probs (world s) model_path image_path = Ok [p0; p1] ->
  generate_gradcam_heatmap model_path image_path output_path target_class s
  = generate_simple_heatmap image_path output_path
      (if is_nan p0 || (p1 <=? p0)%float then "cancer" else "normal")%string
      0.5 s.
Proof.
  intros H. unfold generate_gradcam_heatmap, bind at 1. rewrite H.
  unfold bind at 1, lift, np_argmax, argmax_from.
  destruct (is_nan p0); [reflexivity|].
  destruct (p1 <=? p0)%float; [reflexivity|].
  now destruct (is_nan p1).
Qed.

Lemma generate_gradcam_heatmap_two_classes_witness :
  generate_gradcam_heatmap (lib := ref_lib) weights_path xray_path heatmap_path
    None sample_state
  = generate_simple_heatmap (lib := ref_lib) xray_path heatmap_path
      (if is_nan (0 / 255) || (1 - 0 / 255 <=? 0 / 255)%float
       then "cancer" else "normal")%string
      0.5 sample_state.
Proof.
  apply (generate_gradcam_heatmap_two_classes (lib := ref_lib) weights_path
           xray_path heatmap_path None sample_state (0 / 255) (1 - 0 / 255)).
  vm_compute. reflexivity.
Defined.

(** X5: when the classifier's largest probability sits at index 2 or beyond,
    [generate_gradcam_heatmap] raises [IndexError] on [class_names] before any
    image is read or any file written; when the classifier itself raises, so
    does the call, in the same state. *)
Theorem generate_gradcam_heatmap_errors {lib : Cv2}
    (model_path image_path output_path : path) (target_class : option Z)
    (s : State) :
  (forall e, yolo_probs (world s) model_path image_path = Raise e ->
     generate_gradcam_heatmap model_path image_path output_path target_class s
     = (Raise e, s)) /\
  (forall probs i,
     yolo_probs (world s) model_path image_path = Ok probs ->
     np_argmax probs = Ok i -> (2 <= i)%nat ->
     generate_gradcam_heatmap model_path image_path output_path target_class s
     = (Raise (IndexError "list index out of range"), s)).
Proof.
  split.
  - intros e H. unfold generate_gradcam_heatmap, bind at 1. now rewrite H.
  - intros probs i H Hi Hle.
    unfold generate_gradcam_heatmap, bind at 1. rewrite H.
    unfold bind at 1, lift. rewrite Hi.
    destruct i as [|[|i]]; try lia. now destruct i.
Qed.

Lemma generate_gradcam_heatmap_errors_witness :
  generate_gradcam_heatmap (lib := three_class_lib) weights_path xray_path
    heatmap_path None sample_state
  = (Raise (IndexError "list index out of range"), sample_state).
Proof.
  apply (proj2 (generate_gradcam_heatmap_errors (lib := three_class_lib)
                  weights_path xray_path heatmap_path None sample_state)
           [0.125; 0.25; 0.625]%float 2%nat);
    [reflexivity | vm_compute; reflexivity | lia].
Defined.

(** ** utils/yolo_detector.py *)

Lemma SFcompare_antisym (x y : spec_float) :
  SFcompare y x = option_map CompOpp (SFcompare x y).
Proof.
  destruct x as [sx|sx| |sx mx ex], y as [sy|sy| |sy my ey]; simpl;
    try reflexivity;
    try (destruct sx; reflexivity); try (destruct sy; reflexivity);
    try (destruct sx, sy; reflexivity).
  destruct sx, sy; simpl; try reflexivity;
    rewrite (Z.compare_antisym ex ey);
    destruct (ex ?= ey)%Z; simpl; try reflexivity.
  all: pose proof (Pos.compare_cont_antisym mx my Eq) as A; simpl in A.
  all: rewrite <- A; try rewrite CompOpp_involutive; reflexivity.
Qed.

Lemma SFcompare_not_nan (x y : float) :
  is_nan x = false -> is_nan y = false ->
  exists c, SFcompare (Prim2SF x) (Prim2SF y) = Some c.
Proof.
  unfold is_nan. rewrite !FloatAxioms.eqb_spec. unfold SFeqb.
  intros Hx Hy. apply negb_false_iff in Hx, Hy.
  destruct (Prim2SF x) as [sx|sx| |sx mx ex], (Prim2SF y) as [sy|sy| |sy my ey];
    simpl in *; try discriminate; eexists; reflexivity.
Qed.

(** For two numbers, [x < y] is the negation of [y <= x]. *)
Lemma ltb_of_not_leb (x y : float) :
  is_nan x = false -> is_nan y = false ->
  (y <=? x)%float = false -> (x <? y)%float = true.
Proof.
  intros Hx Hy. destruct (SFcompare_not_nan x y Hx Hy) as [c Hc].
  rewrite leb_spec, ltb_spec. unfold SFleb, SFltb.
  rewrite (SFcompare_antisym (Prim2SF x) (Prim2SF y)), Hc. simpl.
  now destruct c.
Qed.

Lemma not_ltb_of_leb (x y : float) :
  (y <=? x)%float = true -> (x <? y)%float = false.
Proof.
  rewrite leb_spec, ltb_spec. unfold SFleb, SFltb.
  rewrite (SFcompare_antisym (Prim2SF x) (Prim2SF y)).
  destruct (SFcompare (Prim2SF x) (Prim2SF y)) as [[| |]|]; simpl; congruence.
Qed.

Lemma ltb_nan_left (x y : float) : is_nan x = true -> (x <? y)%float = false.
Proof.
  unfold is_nan. rewrite FloatAxioms.eqb_spec, ltb_spec. unfold SFeqb, SFltb.
  intros H. apply negb_true_iff in H.
  destruct (Prim2SF x) as [sx|sx| |sx mx ex]; simpl in *;
    try discriminate; try reflexivity.
  - destruct sx; discriminate.
  - destruct sx; simpl in H;
      rewrite Z.compare_refl, Pos.compare_cont_refl in H; discriminate.
Qed.

(** X6: with a classifier of two classes, [predict] returns the two
    probabilities as the confidences and labels the image "cancer" when the
    cancer probability is NaN or the normal one is not above it; unless the
    normal probability is NaN, [max_confidence] is the confidence of the label
    returned. *)
Theorem predict_two_classes {lib : Cv2} (model_path image_path : path)
    (s : State) (p0 p1 : float) :
  yolo_probs (world s) model_path image_path = Ok [p0; p1] ->
  exists r,
    BoneCancerDetector_predict model_path image_path s = (Ok r, s) /\
    Results.confidence_cancer r = p0 /\
    Results.confidence_normal r = p1 /\
    Results.prediction_class r
    = (if is_nan p0 || (p1 <=? p0)%float then "cancer" else "normal")%string /\
    (is_nan p1 = false ->
     Results.max_confidence r
     = if String.eqb (Results.prediction_class r) "cancer" then p0 else p1).
Proof.
  intros H. unfold BoneCancerDetector_predict, bind at 1. rewrite H.
  unfold bind, lift, ret, np_argmax, argmax_from, py_getitem. simpl nth_error.
  destruct (is_nan p0) eqn:N0.
  - eexists. split; [reflexivity|]. simpl. repeat split.
    intros _. unfold py_max. now rewrite ltb_nan_left.
  - destruct (p1 <=? p0)%float eqn:L.
    + eexists. split; [reflexivity|]. simpl. repeat split.
      intros _. unfold py_max. now rewrite not_ltb_of_leb.
    + destruct (is_nan p1) eqn:N1.
      * eexists. split; [reflexivity|]. simpl. repeat split.
        intros D. discriminate.
      * eexists. split; [reflexivity|]. simpl. repeat split.
        intros _. unfold py_max. now rewrite ltb_of_not_leb.
Qed.

Lemma predict_two_classes_witness :
  exists r,
    BoneCancerDetector_predict (lib := ref_lib) weights_path xray_path sample_state
    = (Ok r, sample_state) /\
    Results.confidence_cancer r = (0 / 255)%float /\
    Results.confidence_normal r = (1 - 0 / 255)%float /\
    Results.prediction_class r
    = (if is_nan (0 / 255) || (1 - 0 / 255 <=? 0 / 255)%float
       then "cancer" else "normal")%string /\
    (is_nan (1 - 0 / 255) = false ->
     Results.max_confidence r
     = if String.eqb (Results.prediction_class r) "cancer"
       then (0 / 255)%float else (1 - 0 / 255)%float).
Proof.
  apply (predict_two_classes (lib := ref_lib) weights_path xray_path
           sample_state (0 / 255) (1 - 0 / 255)).
  vm_compute. reflexivity.
Defined.

(** X7: the label [predict] reports is the label by which
    [generate_gradcam_heatmap] picks the heatmap's weights, run on the same
    files. *)
Theorem predict_label_is_heatmap_label {lib : Cv2}
    (model_path image_path output_path : path) (target_class : option Z)
    (s s' : State) (r : Results.t) :
  BoneCancerDetector_predict model_path image_path s = (Ok r, s') ->
  s' = s /\
  generate_gradcam_heatmap model_path image_path output_path target_class s
  = generate_simple_heatmap image_path output_path
      (Results.prediction_class r) 0.5 s.
Proof.
  unfold BoneCancerDetector_predict, generate_gradcam_heatmap.
  unfold bind at 1 6.
  destruct (yolo_probs (world s) model_path image_path) as [probs|e];
    [|discriminate].
  unfold bind, lift, ret, py_getitem.
  destruct (nth_error probs 0); [|discriminate].
  destruct (nth_error probs 1); [|discriminate].
  destruct (np_argmax probs) as [i|e]; [|discriminate].
  destruct (nth_error class_names i) as [c|]; [|discriminate].
  intros H. injection H as <- <-. now split.
Qed.

Lemma predict_label_is_heatmap_label_witness :
  sample_state = sample_state /\
  generate_gradcam_heatmap (lib := ref_lib) weights_path xray_path heatmap_path
    None sample_state
  = generate_simple_heatmap (lib := ref_lib) xray_path heatmap_path
      (Results.prediction_class
         {| Results.prediction_class := normal;
            Results.confidence_cancer := 0;
            Results.confidence_normal := 1;
            Results.max_confidence := 1 |}) 0.5 sample_state.
Proof.
  apply (predict_label_is_heatmap_label (lib := ref_lib) weights_path xray_path
           heatmap_path None sample_state sample_state).
  vm_compute. reflexivity.
Defined.

(** [predict] step by step; it never changes the state. *)
Lemma predict_run {lib : Cv2} (model_path image_path : path) (s : State) :
  BoneCancerDetector_predict model_path image_path s =
  (match yolo_probs (world s) model_path image_path with
   | Raise e => Raise e
   | Ok probs =>
       match py_getitem probs 0 with
       | Raise e => Raise e
       | Ok c0 =>
           match py_getitem probs 1 with
           | Raise e => Raise e
           | Ok c1 =>
               match np_argmax probs with
               | Raise e => Raise e
               | Ok i =>
                   match py_getitem class_names i with
                   | Raise e => Raise e
                   | Ok c =>
                       Ok {| Results.prediction_class := c;
                             Results.confidence_cancer := c0;
                             Results.confidence_normal := c1;
                             Results.max_confidence := py_max c0 c1 |}
                   end
               end
           end
       end
   end, s).
Proof.
  unfold BoneCancerDetector_predict, bind, lift, ret.
  destruct (yolo_probs (world s) model_path image_path) as [probs|e];
    [|reflexivity].
  destruct (py_getitem probs 0); [|reflexivity].
  destruct (py_getitem probs 1); [|reflexivity].
  destruct (np_argmax probs); [|reflexivity].
  now destruct (py_getitem class_names a1).
Qed.

(** X8: [predict] returns normally exactly when the classifier gives at least
    two probabilities and the largest is one of the first two; otherwise it
    raises.  Either way it leaves the state as it was. *)
Theorem predict_returns_iff {lib : Cv2} (model_path image_path : path)
    (s : State) (probs : list float) :
  yolo_probs (world s) model_path image_path = Ok probs ->
  ((exists r, BoneCancerDetector_predict model_path image_path s = (Ok r, s)) <->
   (2 <= List.length probs)%nat /\
   exists i, np_argmax probs = Ok i /\ (i < 2)%nat) /\
  snd (BoneCancerDetector_predict model_path image_path s) = s.
Proof.
  intros H. rewrite predict_run, H. split; [|reflexivity].
  unfold py_getitem.
  destruct probs as [|p0 [|p1 probs]]; simpl nth_error.
  - split; [intros [r Hr]; discriminate | intros [Hl _]; simpl in Hl; lia].
  - split; [intros [r Hr]; discriminate | intros [Hl _]; simpl in Hl; lia].
  - destruct (np_argmax (p0 :: p1 :: probs)) as [i|e] eqn:A.
    2:{ split; [intros [r Hr]; discriminate
               | intros [_ (i & Hi & _)]; discriminate]. }
    destruct i as [|[|i]]; simpl nth_error.
    + split; [|intros _; eexists; reflexivity].
      intros _. split; [simpl; lia|]. exists 0%nat. split; [reflexivity|lia].
    + split; [|intros _; eexists; reflexivity].
      intros _. split; [simpl; lia|]. exists 1%nat. split; [reflexivity|lia].
    + split; [intros [r Hr]; destruct i; discriminate|].
      intros [_ (j & Hj & Hlt)]. injection Hj as <-. lia.
Qed.

Lemma predict_returns_iff_witness :
  ((exists r, BoneCancerDetector_predict (lib := three_class_lib) weights_path
                xray_path sample_state = (Ok r, sample_state)) <->
   (2 <= List.length [0.125; 0.25; 0.625]%float)%nat /\
   exists i, np_argmax [0.125; 0.25; 0.625]%float = Ok i /\ (i < 2)%nat) /\
  snd (BoneCancerDetector_predict (lib := three_class_lib) weights_path
         xray_path sample_state) = sample_state.
Proof.
  apply (predict_returns_iff (lib := three_class_lib) weights_path xray_path
           sample_state [0.125; 0.25; 0.625]%float).
  reflexivity.
Defined.

(** ** routes/predict.py: [allowed_file] *)

Lemma rsplit_last_none (c : ascii) (s : string) :
  rsplit_last c s = None <-> str_contains c s = false.
Proof.
  induction s as [|x rest IH]; simpl; [tauto|].
  destruct (rsplit_last c rest) as [[b a]|].
  - split; [discriminate|]. intros H. apply orb_false_elim in H as [_ H].
    apply IH in H. discriminate.
  - destruct (Ascii.eqb x c); simpl; [split; discriminate|].
    split; intros _; [now apply IH | reflexivity].
Qed.

Lemma str_contains_middle (c : ascii) (before after : string) :
  str_contains c (before ++ String c after) = true.
Proof.
  induction before as [|z before IH]; simpl.
  - now rewrite Ascii.eqb_refl.
  - now rewrite IH, orb_true_r.
Qed.

Lemma rsplit_last_some (c : ascii) (s before after : string) :
  rsplit_last c s = Some (before, after) <->
  s = (before ++ String c after)%string /\ str_contains c after = false.
Proof.
  revert before; induction s as [|x rest IH]; intros before; simpl.
  - split; [discriminate|]. intros [H _]. now destruct before.
  - destruct (rsplit_last c rest) as [[b a]|] eqn:E.
    + split.
      * intros H. injection H as <- <-.
        destruct (proj1 (IH b) eq_refl) as [-> Ha]. now split.
      * intros [H Ha]. destruct before as [|y before]; simpl in H.
        -- injection H as -> ->.
           apply rsplit_last_none in Ha. congruence.
        -- injection H as -> H.
           assert (R : Some (b, a) = Some (before, after))
             by (apply IH; now split).
           now injection R as -> ->.
    + apply rsplit_last_none in E.
      destruct (Ascii.eqb x c) eqn:X.
      * apply Ascii.eqb_eq in X as ->. split.
        -- intros H. injection H as <- <-. now split.
        -- intros [H Ha]. destruct before as [|y before]; simpl in H.
           ++ now injection H as ->.
           ++ injection H as -> H. subst rest.
              rewrite str_contains_middle in E. discriminate.
      * split; [discriminate|]. intros [H Ha].
        destruct before as [|y before]; simpl in H.
        -- injection H as -> _. rewrite Ascii.eqb_refl in X. discriminate.
        -- injection H as -> H. subst rest.
           rewrite str_contains_middle in E. discriminate.
Qed.

Lemma str_in_In (x : string) (xs : list string) :
  str_in x xs = true <-> In x xs.
Proof.
  unfold str_in. rewrite existsb_exists. split.
  - intros (y & Hy & E). apply String.eqb_eq in E. now subst.
  - intros H. exists x. split; [assumption | apply String.eqb_refl].
Qed.

(** X9: [allowed_file] never raises, and it accepts exactly the names whose
    text after the last dot is, in lower case, one of the allowed
    extensions. *)
Theorem allowed_file_accepts_iff (filename : string) :
  exists ok,
    allowed_file filename = Ok ok /\
    (ok = true <->
     exists stem ext,
       filename = (stem ++ String "." ext)%string /\
       str_contains "." ext = false /\
       In (str_lower ext) ALLOWED_EXTENSIONS).
Proof.
  unfold allowed_file, str_rsplit1, py_getitem.
  destruct (str_contains "." filename) eqn:C.
  - destruct (rsplit_last "." filename) as [[b a]|] eqn:E.
    + cbn [nth_error]. eexists. split; [reflexivity|].
      rewrite str_in_In. apply rsplit_last_some in E as [-> Ha]. split.
      * intros H. now exists b, a.
      * intros (stem & ext & H & He & Hin).
        assert (R : Some (b, a) = Some (stem, ext)).
        { rewrite <- (proj2 (rsplit_last_some "." _ b a) (conj eq_refl Ha)).
          apply rsplit_last_some. now split. }
        now injection R as -> ->.
    + apply rsplit_last_none in E. congruence.
  - exists false. split; [reflexivity|]. split; [discriminate|].
    intros (stem & ext & H & He & _). subst filename.
    assert (E : rsplit_last "." (stem ++ String "." ext) = Some (stem, ext))
      by (apply rsplit_last_some; now split).
    apply rsplit_last_none in C. congruence.
Qed.

Lemma lower_ascii_dot (x : ascii) :
  Ascii.eqb (lower_ascii x) "." = Ascii.eqb x ".".
Proof.
  destruct x as [[] [] [] [] [] [] [] []]; vm_compute; reflexivity.
Qed.

Lemma lower_ascii_idempotent (x : ascii) :
  lower_ascii (lower_ascii x) = lower_ascii x.
Proof.
  destruct x as [[] [] [] [] [] [] [] []]; vm_compute; reflexivity.
Qed.

Lemma str_lower_idempotent (s : string) : str_lower (str_lower s) = str_lower s.
Proof.
  induction s as [|x s IH]; simpl; [reflexivity|].
  now rewrite lower_ascii_idempotent, IH.
Qed.

Lemma str_contains_lower (s : string) :
  str_contains "." (str_lower s) = str_contains "." s.
Proof.
  induction s as [|x s IH]; simpl; [reflexivity|].
  now rewrite lower_ascii_dot, IH.
Qed.

Lemma rsplit_last_lower (s : string) :
  rsplit_last "." (str_lower s)
  = option_map (fun ba => (str_lower (fst ba), str_lower (snd ba)))
      (rsplit_last "." s).
Proof.
  induction s as [|x s IH]; simpl; [reflexivity|].
  rewrite IH. destruct (rsplit_last "." s) as [[b a]|]; simpl; [reflexivity|].
  rewrite lower_ascii_dot. now destruct (Ascii.eqb x ".").
Qed.

(** X10: [allowed_file] ignores the case of the file name. *)
Theorem allowed_file_ignores_case (filename : string) :
  allowed_file (str_lower filename) = allowed_file filename.
Proof.
  unfold allowed_file, str_rsplit1. rewrite str_contains_lower, rsplit_last_lower.
  destruct (str_contains "." filename); [|reflexivity].
  destruct (rsplit_last "." filename) as [[b a]|];
    cbn [option_map py_getitem nth_error fst snd]; [|reflexivity].
  now rewrite str_lower_idempotent.
Qed.

(** ** routes/predict.py: [upload] and [results] *)

Ltac app_simpl :=
  cbn [app_state db session flashes session_user_id session_last_prediction_id].





Lemma gradcam_run {lib : Cv2} (model_path image_path output_path : path)
    (target_class : option Z) (s : State) :
  generate_gradcam_heatmap model_path image_path output_path target_class s =
  match yolo_probs (world s) model_path image_path with
  | Raise e => (Raise e, s)
  | Ok probs =>
      match np_argmax probs with
      | Raise e => (Raise e, s)
      | Ok i =>
          match nth_error class_names i with
          | None => (Raise (IndexError "list index out of range"), s)
          | Some c => generate_simple_heatmap image_path output_path c 0.5 s
          end
      end
  end.
Proof.
  unfold generate_gradcam_heatmap, bind, lift.
  destruct (yolo_probs (world s) model_path image_path) as [probs|e];
    [|reflexivity].
  destruct (np_argmax probs) as [i|e]; [|reflexivity].
  now destruct (nth_error class_names i).
Qed.

(** The file system after a call of [generate_simple_heatmap] that returned. *)
Lemma generate_simple_heatmap_ok_world {lib : Cv2} (image_path output_path : path)
    (pc : string) (alpha : float) (s s' : State) (r : path) :
  generate_simple_heatmap image_path output_path pc alpha s = (Ok r, s') ->
  (writable (world s) output_path = true ->
   exists b, world s' = fs_write output_path b (world s)) /\
  (writable (world s) output_path = false -> world s' = world s).
Proof.
  rewrite generate_simple_heatmap_run.
  destruct (files (world s) image_path) as [b|]; [|discriminate].
  destruct (imread_decode b) as [img|]; [|discriminate].
  destruct (pipeline_computes img pc alpha) as (o & tr & _ & Hrun).
  rewrite Hrun. destruct o as [L|e]; [|discriminate].
  destruct (find_encoder output_path) as [enc|]; [|discriminate].
  cbn [after world].
  destruct (writable (world s) output_path); intros H; injection H as <- <-.
  - split; [|discriminate]. intros _. eexists. reflexivity.
  - split; [discriminate|]. reflexivity.
Qed.

Lemma generate_gradcam_heatmap_ok_world {lib : Cv2}
    (model_path image_path output_path : path) (target_class : option Z)
    (s s' : State) (r : path) :
  generate_gradcam_heatmap model_path image_path output_path target_class s
  = (Ok r, s') ->
  (writable (world s) output_path = true ->
   exists b, world s' = fs_write output_path b (world s)) /\
  (writable (world s) output_path = false -> world s' = world s).
Proof.
  rewrite gradcam_run.
  destruct (yolo_probs (world s) model_path image_path) as [probs|e];
    [|discriminate].
  destruct (np_argmax probs) as [i|e]; [|discriminate].
  destruct (nth_error class_names i) as [c|]; [|discriminate].
  apply generate_simple_heatmap_ok_world.
Qed.

Lemma predict_state {lib : Cv2} (model_path image_path : path) (s : State) :
  snd (BoneCancerDetector_predict model_path image_path s) = s.
Proof. now rewrite predict_run. Qed.

(** X13: when [upload] redirects to the results page, the heatmap file of the
    new row exists if its path could be opened for writing; if it could not,
    [upload] has succeeded all the same and that path holds what it held
    before. *)
Theorem upload_heatmap_file {lib : Cv2} (cfg : AppConfig)
    (secure_filename : string -> string) (request_file : option FileStorage)
    (timestamp : string) (app app' : App) (pid : nat) :
  upload cfg secure_filename request_file timestamp app
  = (Returned (RedirectTo "predict.results" (Some pid)), app') ->
  exists row,
    db app' = db app ++ [row] /\
    Row.id row = pid /\
    (writable (world (app_state app)) (Row.heatmap_image_path row) = true ->
     files (world (app_state app')) (Row.heatmap_image_path row) <> None) /\
    (writable (world (app_state app)) (Row.heatmap_image_path row) = false ->
     files (world (app_state app')) (Row.heatmap_image_path row)
     = files (world (app_state app)) (Row.heatmap_image_path row)).
Proof.
  destruct app as [st rows [user last] fl].
  unfold upload, try_except, bindA, call_utils, lift, session_get_user_id,
    file_save, db_add_commit, session_set_last_prediction_id, flash, retA.
  app_simpl.
  destruct request_file as [file|]; [|discriminate].
  destruct (String.eqb (filename file) ""); [discriminate|].
  destruct (allowed_file (filename file)) as [[|]|e]; cbn [negb]; app_simpl;
    try discriminate.
  destruct user as [uid|]; app_simpl; [|discriminate].
  match goal with |- context [writable (world st) ?p] =>
    destruct (writable (world st) p) eqn:W end; app_simpl; [|discriminate].
  match goal with |- context [BoneCancerDetector_predict ?m ?p ?s] =>
    pose proof (predict_state m p s) as P;
    destruct (BoneCancerDetector_predict m p s) as [[r|e] s2] end;
    app_simpl; [|discriminate].
  cbn [snd] in P. subst s2.
  match goal with |- context [generate_gradcam_heatmap ?m ?p ?h ?t ?s] =>
    destruct (generate_gradcam_heatmap m p h t s) as [[r'|e] s3] eqn:G end;
    app_simpl; [|discriminate].
  intros H. injection H as <- <-. app_simpl.
  eexists. split; [reflexivity|]. split; [reflexivity|].
  cbn [Row.heatmap_image_path].
  apply generate_gradcam_heatmap_ok_world in G as [Gw Gn].
  cbn [world fs_write writable] in Gw, Gn.
  split.
  - intros Hw. destruct (Gw Hw) as [b ->].
    rewrite files_fs_write_same. discriminate.
  - intros Hw. rewrite (Gn Hw). apply files_fs_write_other.
    intros E. rewrite E, W in Hw. discriminate.
Qed.

Lemma upload_heatmap_file_witness :
  exists row,
    db uploaded_app = db sample_app ++ [row] /\
    Row.id row = 1%nat /\
    (writable (world (app_state sample_app)) (Row.heatmap_image_path row) = true ->
     files (world (app_state uploaded_app)) (Row.heatmap_image_path row) <> None) /\
    (writable (world (app_state sample_app)) (Row.heatmap_image_path row) = false ->
     files (world (app_state uploaded_app)) (Row.heatmap_image_path row)
     = files (world (app_state sample_app)) (Row.heatmap_image_path row)).
Proof.
  apply (upload_heatmap_file (lib := ref_lib) sample_cfg ref_secure_filename
           (Some sample_upload) sample_timestamp sample_app uploaded_app 1).
  vm_compute. reflexivity.
Defined.

Lemma str_contains_app (c : ascii) (a b : string) :
  str_contains c (a ++ b) = str_contains c a || str_contains c b.
Proof.
  induction a as [|x a IH]; simpl; [reflexivity|].
  now rewrite IH, orb_assoc.
Qed.

Lemma str_append_assoc (a b c : string) :
  ((a ++ b) ++ c)%string = (a ++ (b ++ c))%string.
Proof. induction a as [|x a IH]; simpl; [reflexivity | now rewrite IH]. Qed.

Lemma prefix_slash_false (name : string) :
  str_contains "/" name = false -> String.prefix "/" name = false.
Proof.
  destruct name as [|x name]; [reflexivity|].
  cbn [str_contains]. intros H. apply orb_false_elim in H as [H _].
  change (String.prefix "/" (String x name))
    with (if ascii_dec "/" x then String.prefix "" name else false).
  destruct (ascii_dec "/" x) as [<-|N]; [discriminate|reflexivity].
Qed.

(** [basename] undoes [path_join] for a name without a slash. *)
Lemma basename_path_join (dir name : string) :
  str_contains "/" name = false -> basename (path_join dir name) = name.
Proof.
  intros H. unfold path_join. rewrite (prefix_slash_false name H).
  unfold basename.
  destruct (String.eqb dir "") eqn:E.
  - apply String.eqb_eq in E. subst dir. simpl.
    apply rsplit_last_none in H. now rewrite H.
  - cbn [orb]. unfold ends_with_slash.
    change (dir ++ "/" ++ name)%string with (dir ++ String "/" name)%string.
    destruct (rsplit_last "/" dir) as [[d t]|] eqn:R.
    + destruct t as [|y t].
      * apply rsplit_last_some in R as [-> _].
        assert (S : rsplit_last "/" ((d ++ String "/" "") ++ name) = Some (d, name)).
        { apply rsplit_last_some. split; [|assumption].
          now rewrite str_append_assoc. }
        now rewrite S.
      * assert (S : rsplit_last "/" (dir ++ String "/" name) = Some (dir, name))
          by (apply rsplit_last_some; now split).
        now rewrite S.
    + assert (S : rsplit_last "/" (dir ++ String "/" name) = Some (dir, name))
        by (apply rsplit_last_some; now split).
      now rewrite S.
Qed.

Lemma path_join_plain (dir name : string) :
  String.eqb dir "" = false -> ends_with_slash dir = false ->
  str_contains "/" name = false ->
  path_join dir name = (dir ++ "/" ++ name)%string.
Proof.
  intros Hd He Hn. unfold path_join.
  now rewrite (prefix_slash_false name Hn), Hd, He.
Qed.

Lemma string_of_uint_no_slash (d : Decimal.uint) :
  str_contains "/" (NilEmpty.string_of_uint d) = false.
Proof. induction d; simpl; auto. Qed.

Lemma unique_name_no_slash (uid : nat) (timestamp name : string) :
  str_contains "/" timestamp = false -> str_contains "/" name = false ->
  str_contains "/" (unique_name uid timestamp name) = false.
Proof.
  intros Ht Hn. unfold unique_name, str_of_nat.
  rewrite !str_contains_app, string_of_uint_no_slash, Ht, Hn. reflexivity.
Qed.

Lemma fold_max_ge (rows : list Row.t) (r : Row.t) :
  In r rows -> (Row.id r <= fold_right Nat.max 0 (map Row.id rows))%nat.
Proof.
  induction rows as [|x rows IH]; simpl; [contradiction|].
  intros [->|H]; [lia | specialize (IH H); lia].
Qed.

(** The row that [db_add_commit] has just added is the one its id finds. *)
Lemma db_get_new (rows : list Row.t) (row : Row.t) :
  Row.id row = next_id rows -> db_get (next_id rows) (rows ++ [row]) = Some row.
Proof.
  intros Hid. unfold db_get.
  assert (G : forall l, (forall r, In r l -> Row.id r <> next_id rows) ->
                find (fun r => Nat.eqb (Row.id r) (next_id rows)) (l ++ [row])
                = Some row).
  { induction l as [|x l IH]; simpl; intros Hl.
    - now rewrite Hid, Nat.eqb_refl.
    - destruct (Nat.eqb (Row.id x) (next_id rows)) eqn:E.
      + apply Nat.eqb_eq in E. exfalso. apply (Hl x); auto.
      + apply IH. intros r Hr. apply Hl. now right. }
  apply G. intros r Hr. pose proof (fold_max_ge rows r Hr). unfold next_id. lia.
Qed.

Lemma safe_char_not_slash (x : ascii) : Ascii.eqb (safe_char x) "/" = false.
Proof.
  destruct x as [[] [] [] [] [] [] [] []]; vm_compute; reflexivity.
Qed.

Lemma ref_secure_filename_no_slash (name : string) :
  str_contains "/" (ref_secure_filename name) = false.
Proof.
  induction name as [|x name IH]; simpl; [reflexivity|].
  now rewrite safe_char_not_slash, IH.
Qed.

(** X14: [results] renders a prediction only when it is in the table under
    the id asked for and belongs to the logged-in user, and then it changes
    nothing. *)
Theorem results_only_for_owner (prediction_id : nat) (app app' : App)
    (p : Row.t) (original_image heatmap_image : string) :
  results prediction_id app
  = (Returned (RenderResults p original_image heatmap_image), app') ->
  In p (db app) /\ Row.id p = prediction_id /\
  session_user_id (session app) = Some (Row.user_id p) /\
  app' = app.
Proof.
  unfold results, db_get.
  destruct (find _ (db app)) as [q|] eqn:F; [|discriminate].
  apply find_some in F as [Hin Hid]. apply Nat.eqb_eq in Hid.
  unfold bindA, session_get_user_id, flash, retA.
  destruct (session_user_id (session app)) as [uid|]; [|discriminate].
  destruct (Nat.eqb (Row.user_id q) uid) eqn:E; cbn [negb]; [|discriminate].
  apply Nat.eqb_eq in E. intros H. injection H as <- _ _ <-.
  repeat split; congruence.
Qed.

Lemma results_only_for_owner_witness :
  exists p,
    In p (db uploaded_app) /\ Row.id p = 1%nat /\
    session_user_id (session uploaded_app) = Some (Row.user_id p) /\
    uploaded_app = uploaded_app.
Proof.
  eexists.
  eapply (results_only_for_owner 1 uploaded_app uploaded_app).
  reflexivity.
Defined.

(** X15: after an upload that succeeded, the results page of the new
    prediction shows, for the same session, the two files under the names
    [upload] gave them: [uploads/original/<name>] and
    [uploads/heatmaps/heatmap_<name>], provided the timestamp and the secured
    file name hold no slash. *)
Theorem results_after_upload {lib : Cv2} (cfg : AppConfig)
    (secure_filename : string -> string) (request_file : option FileStorage)
    (timestamp : string) (app app' : App) (pid : nat) :
  (forall name, str_contains "/" (secure_filename name) = false) ->
  str_contains "/" timestamp = false ->
  upload cfg secure_filename request_file timestamp app
  = (Returned (RedirectTo "predict.results" (Some pid)), app') ->
  exists file uid row,
    request_file = Some file /\
    session_user_id (session app) = Some uid /\
    results pid app'
    = (Returned
         (RenderResults row
            ("uploads/original/"
             ++ unique_name uid timestamp (secure_filename (filename file)))
            ("uploads/heatmaps/heatmap_"
             ++ unique_name uid timestamp (secure_filename (filename file)))),
       app').
Proof.
  intros Hsf Hts.
  destruct app as [st rows [user last] fl].
  unfold upload, try_except, bindA, call_utils, lift, session_get_user_id,
    file_save, db_add_commit, session_set_last_prediction_id, flash, retA.
  app_simpl.
  destruct request_file as [file|]; [|discriminate].
  destruct (String.eqb (filename file) ""); [discriminate|].
  destruct (allowed_file (filename file)) as [[|]|e]; cbn [negb]; app_simpl;
    try discriminate.
  destruct user as [uid|]; app_simpl; [|discriminate].
  match goal with |- context [writable (world st) ?p] =>
    destruct (writable (world st) p) eqn:W end; app_simpl; [|discriminate].
  match goal with |- context [BoneCancerDetector_predict ?m ?p ?s] =>
    destruct (BoneCancerDetector_predict m p s) as [[r|e] s2] end;
    app_simpl; [|discriminate].
  match goal with |- context [generate_gradcam_heatmap ?m ?p ?h ?t ?s] =>
    destruct (generate_gradcam_heatmap m p h t s) as [[r'|e] s3] eqn:G end;
    app_simpl; [|discriminate].
  intros H. injection H as <- <-.
  exists file, uid. eexists. split; [reflexivity|]. split; [reflexivity|].
  unfold results. app_simpl. rewrite db_get_new by reflexivity.
  unfold bindA, session_get_user_id, retA. app_simpl.
  cbn [Row.user_id Row.original_image_path Row.heatmap_image_path].
  rewrite Nat.eqb_refl. cbn [negb].
  fold (unique_name uid timestamp (secure_filename (filename file))).
  pose proof (unique_name_no_slash uid timestamp _ Hts (Hsf (filename file))) as U.
  assert (U' : str_contains "/"
                 ("heatmap_" ++ unique_name uid timestamp
                                  (secure_filename (filename file))) = false)
    by (rewrite str_contains_app, U; reflexivity).
  rewrite !basename_path_join by assumption.
  rewrite (path_join_plain (path_join "uploads" "original"))
    by (assumption || reflexivity).
  rewrite (path_join_plain (path_join "uploads" "heatmaps"))
    by (assumption || reflexivity).
  reflexivity.
Qed.

Lemma results_after_upload_witness :
  exists file uid row,
    Some sample_upload = Some file /\
    session_user_id (session sample_app) = Some uid /\
    results 1 uploaded_app
    = (Returned
         (RenderResults row
            ("uploads/original/"
             ++ unique_name uid sample_timestamp
                  (ref_secure_filename (filename file)))
            ("uploads/heatmaps/heatmap_"
             ++ unique_name uid sample_timestamp
                  (ref_secure_filename (filename file)))),
       uploaded_app).
Proof.
  apply (results_after_upload (lib := ref_lib) sample_cfg ref_secure_filename
           (Some sample_upload) sample_timestamp sample_app uploaded_app 1
           ref_secure_filename_no_slash);
    vm_compute; reflexivity.
Defined.
